(** * Post-processing pipeline of [backend/server.py]

    A shallow embedding of the four decoding functions of the server
    ([parse_yolo_output], [apply_nms], [compute_iou],
    [parse_efficientnet_output]) together with the Python and NumPy
    primitives they call, and of the code around them ([load_labels],
    [load_models], [get_config], [detect_objects], [classify_image]),
    followed by the properties of the pipeline.

    Numbers.  The server computes on IEEE floats.  Here a float is an exact
    rational ([Q]): comparisons, [max], [min], sorting, filtering and
    slicing behave on [Q] as they do on finite floats, while [+ - * /] are
    taken without rounding and NaN and the infinities are left out.
    Equality of scores is [Qeq] ([==]) unless a value is handed through
    untouched, in which case it is Leibniz equality.  [np.exp] has no
    rational counterpart and is a parameter of the classifier's decoder. *)

From Stdlib Require Import QArith Qabs Qround Qpower ZArith List String Bool.
From Stdlib Require Import Arith Lia Lqa.
From Stdlib Require Import Strings.Byte Sorting.Sorted Sorting.Permutation.
From Stdlib Require DecimalString DecimalNat.
From Equations Require Import Equations.
Import ListNotations.

Open Scope Q_scope.

(** ** Python exceptions and the error monad *)

Inductive exn : Type :=
| IndexError   (* subscript out of range *)
| ValueError.  (* reduction of an empty array, unpacking of a short row *)

Definition result (A : Type) : Type := (exn + A)%type.

Definition Ok {A} (a : A) : result A := inr a.
Definition Raise {A} (e : exn) : result A := inl e.

Definition bind {A B} (m : result A) (k : A -> result B) : result B :=
  match m with
  | inl e => inl e
  | inr a => k a
  end.

Notation "x <- m ;; k" := (bind m (fun x => k))
  (at level 61, m at next level, right associativity).

(** ** Python and NumPy primitives *)

Module Py.

(** [a < b] and [a >= b] on floats. *)
Definition ltb (a b : Q) : bool := negb (Qle_bool b a).
Definition geb (a b : Q) : bool := Qle_bool b a.

(** The builtins [max(a, b)] and [min(a, b)]: the first argument is
    returned unless the second is strictly better. *)
Definition max (a b : Q) : Q := if ltb a b then b else a.
Definition min (a b : Q) : Q := if ltb b a then b else a.

(** [np.max], [np.min], [np.sum] of a one-dimensional array.  The first two
    raise [ValueError] on an array of size zero. *)
Definition np_max (a : list Q) : result Q :=
  match a with
  | [] => Raise ValueError
  | x :: a' => Ok (fold_left max a' x)
  end.

Definition np_min (a : list Q) : result Q :=
  match a with
  | [] => Raise ValueError
  | x :: a' => Ok (fold_left min a' x)
  end.

Definition np_sum (a : list Q) : Q := fold_left Qplus a 0.

(** [np.argmax]: index of the first occurrence of the maximum. *)
Fixpoint argmax_from (best_i : nat) (best : Q) (i : nat) (a : list Q) : nat :=
  match a with
  | [] => best_i
  | x :: a' =>
      if ltb best x then argmax_from i x (S i) a'
      else argmax_from best_i best (S i) a'
  end.

Definition np_argmax (a : list Q) : result nat :=
  match a with
  | [] => Raise ValueError
  | x :: a' => Ok (argmax_from 0%nat x 1%nat a')
  end.

(** [sorted(l, key=key, reverse=True)]: descending by key and stable, so
    that entries of equal key keep the order they had in [l]. *)
Section Sorted.
Context {A : Type} (key : A -> Q).

Fixpoint insert_reverse (x : A) (l : list A) : list A :=
  match l with
  | [] => [x]
  | y :: l' =>
      if ltb (key x) (key y) then y :: insert_reverse x l' else x :: l
  end.

Definition sorted_reverse (l : list A) : list A :=
  fold_right insert_reverse [] l.
End Sorted.

(** [np.argsort(a)]: the indices of [a] in ascending order of value.  Ties
    keep index order, as the insertion sort NumPy runs on short arrays
    does. *)
Fixpoint insert_index (a : list Q) (i : nat) (l : list nat) : list nat :=
  match l with
  | [] => [i]
  | j :: l' =>
      if ltb (nth j a 0) (nth i a 0) then j :: insert_index a i l' else i :: l
  end.

Definition np_argsort (a : list Q) : list nat :=
  fold_right (insert_index a) [] (seq 0 (List.length a)).

(** The slices [l[start:stop]] for indices [0 <= start <= stop] and
    [l[start:]] for any integer [start], negative ones counting from the
    end. *)
Definition slice {A} (start stop : nat) (l : list A) : list A :=
  firstn (stop - start) (skipn start l).

Definition slice_from {A} (start : Z) (l : list A) : list A :=
  let len := Z.of_nat (List.length l) in
  let s := if (start <? 0)%Z then Z.max 0 (start + len) else Z.min start len in
  skipn (Z.to_nat s) l.

(** [a.T] for a two-dimensional array given as the list of its rows, all of
    one length; an array without rows is taken to have no columns. *)
Definition transpose (a : list (list Q)) : list (list Q) :=
  let ncols := match a with [] => 0%nat | r :: _ => List.length r end in
  map (fun j => map (fun r => nth j r 0) a) (seq 0 ncols).

(** [str(n)] for a natural number, as used by the f-string [class_{n}]. *)
Definition str (n : nat) : string :=
  DecimalString.NilEmpty.string_of_uint (Nat.to_uint n).

End Py.

(** ** Response models *)

(** [bbox: List[float]  # [x1, y1, x2, y2] normalized 0-1]: the list always
    has these four entries, read as [box[0]] .. [box[3]]. *)
Record Box : Type := mkBox { bx1 : Q; by1 : Q; bx2 : Q; by2 : Q }.

Record Detection : Type := mkDetection {
  label : string;
  confidence : Q;
  bbox : Box
}.

Record Classification : Type := mkClassification {
  c_label : string;
  c_confidence : Q
}.

(** ** [compute_iou] *)

(** The locals [inter_area], [box1_area]/[box2_area] and [union_area]. *)
Definition inter_area (box1 box2 : Box) : Q :=
  let x1 := Py.max (bx1 box1) (bx1 box2) in
  let y1 := Py.max (by1 box1) (by1 box2) in
  let x2 := Py.min (bx2 box1) (bx2 box2) in
  let y2 := Py.min (by2 box1) (by2 box2) in
  Py.max 0 (x2 - x1) * Py.max 0 (y2 - y1).

Definition box_area (box : Box) : Q :=
  (bx2 box - bx1 box) * (by2 box - by1 box).

Definition union_area (box1 box2 : Box) : Q :=
  box_area box1 + box_area box2 - inter_area box1 box2.

Definition compute_iou (box1 box2 : Box) : Q :=
  if Py.ltb 0 (union_area box1 box2)
  then inter_area box1 box2 / union_area box1 box2
  else 0.

(** ** [apply_nms] *)

(** The [while detections:] loop.  [keep] is the list built by
    [keep.append(best)]; every round pops the head and filters the rest,
    so the list of remaining detections gets shorter. *)
Equations? nms_loop (iou_threshold : Q) (keep detections : list Detection)
  : list Detection by wf (List.length detections) lt :=
  nms_loop iou_threshold keep [] := keep;
  nms_loop iou_threshold keep (best :: rest) :=
    nms_loop iou_threshold (keep ++ [best])
      (filter (fun d => Py.ltb (compute_iou (bbox best) (bbox d)) iou_threshold)
         rest).
Proof.
  simpl. apply Nat.lt_succ_r, filter_length_le.
Qed.

Definition apply_nms (detections : list Detection) (iou_threshold : Q)
  : list Detection :=
  match detections with
  | [] => []
  | _ :: _ =>
      let detections := Py.sorted_reverse confidence detections in
      nms_loop iou_threshold [] detections
  end.

(** ** The tensors handed over by the interpreter *)

(** An output tensor of the classifier: a batch of score vectors, either
    quantized ([np.uint8]) or [np.float32]. *)
Inductive ndarray : Type :=
| UInt8 (rows : list (list byte))
| Float32 (rows : list (list Q)).

Section Decoders.

(** The label tables filled by [load_models] and [np.exp]. *)
Variables coco_labels imagenet_labels : list string.
Variable np_exp : Q -> Q.

(** [labels[i] if i < len(labels) else f"class_{i}"] *)
Definition label_of (labels : list string) (i : nat) : string :=
  if (i <? List.length labels)%nat then nth i labels ""%string
  else ("class_" ++ Py.str i)%string.

(** ** [parse_yolo_output] *)

Definition num_classes : nat := 80.

(** Body of [for detection in output:].  [Some d] is the detection that
    the round appends, [None] a round that appends nothing. *)
Definition decode_anchor (conf_threshold : Q) (detection : list Q)
  : result (option Detection) :=
  match Py.slice 0 4 detection with
  | [cx; cy; w; h] =>
      let class_scores := Py.slice 4 (4 + num_classes) detection in
      max_score <- Py.np_max class_scores ;;
      class_id <- Py.np_argmax class_scores ;;
      if Py.geb max_score conf_threshold then
        let x1 := (cx - w / 2) / 640 in
        let y1 := (cy - h / 2) / 640 in
        let x2 := (cx + w / 2) / 640 in
        let y2 := (cy + h / 2) / 640 in
        let '(x1, y1, x2, y2) :=
          (Py.max 0 x1, Py.max 0 y1, Py.min 1 x2, Py.min 1 y2) in
        let label := label_of coco_labels class_id in
        Ok (Some (mkDetection label max_score (mkBox x1 y1 x2 y2)))
      else Ok None
  | _ => Raise ValueError
  end.

(** The loop itself, [detections] being the list that
    [detections.append] extends. *)
Fixpoint scan_anchors (conf_threshold : Q) (rows : list (list Q))
  (detections : list Detection) : result (list Detection) :=
  match rows with
  | [] => Ok detections
  | detection :: rows' =>
      d <- decode_anchor conf_threshold detection ;;
      scan_anchors conf_threshold rows'
        (match d with
         | Some d => detections ++ [d]
         | None => detections
         end)
  end.

Definition parse_yolo_output (output : list (list (list Q)))
  (orig_width orig_height : Z) (conf_threshold iou_threshold : Q)
  : result (list Detection) :=
  match output with
  | [] => Raise IndexError
  | output0 :: _ =>
      let output := Py.transpose output0 in
      detections <- scan_anchors conf_threshold output [] ;;
      let detections := apply_nms detections iou_threshold in
      Ok (Py.slice 0 10 detections)
  end.

(** ** [parse_efficientnet_output] *)

(** [scores = output[0]], converted to floats when quantized. *)
Definition dequantize (b : byte) : Q :=
  inject_Z (Z.of_N (Byte.to_N b)) / 255.

Definition scores_of (output : ndarray) : result (list Q) :=
  match output with
  | UInt8 [] | Float32 [] => Raise IndexError
  | UInt8 (scores :: _) => Ok (map dequantize scores)
  | Float32 (scores :: _) => Ok scores
  end.

(** [np.max(scores) > 1.0 or np.min(scores) < 0] *)
Definition looks_like_logits (scores : list Q) : result bool :=
  mx <- Py.np_max scores ;;
  if Py.ltb 1 mx then Ok true
  else mn <- Py.np_min scores ;; Ok (Py.ltb mn 0).

(** [exp_scores / np.sum(exp_scores)] with
    [exp_scores = np.exp(scores - np.max(scores))]. *)
Definition softmax (scores : list Q) : result (list Q) :=
  mx <- Py.np_max scores ;;
  let exp_scores := map (fun x => np_exp (x - mx)) scores in
  let total := Py.np_sum exp_scores in
  Ok (map (fun e => e / total) exp_scores).

(** The score vector after the "apply softmax if not already applied"
    step. *)
Definition normalized_scores (scores : list Q) : result (list Q) :=
  logits <- looks_like_logits scores ;;
  if logits then softmax scores else Ok scores.

Definition parse_efficientnet_output (output : ndarray) (top_k : Z)
  : result (list Classification) :=
  scores <- scores_of output ;;
  scores <- normalized_scores scores ;;
  let top_indices :=
    List.rev (Py.slice_from (- top_k) (Py.np_argsort scores)) in
  Ok (map (fun idx =>
             mkClassification (label_of imagenet_labels idx)
               (nth idx scores 0))
        top_indices).

End Decoders.

(** * Vocabulary of the properties *)

(** Two boxes do not overlap when one lies left of, right of, above or
    below the other; a shared edge is no overlap. *)
Definition non_overlapping (a b : Box) : Prop :=
  bx2 a <= bx1 b \/ bx2 b <= bx1 a \/ by2 a <= by1 b \/ by2 b <= by1 a.

(** [a] may stand before [b] in a list of non-increasing key. *)
Definition before {A} (key : A -> Q) (a b : A) : Prop := key b <= key a.

Definition by_confidence : Detection -> Detection -> Prop := before confidence.

Definition descending (l : list Detection) : Prop :=
  StronglySorted by_confidence l.

(** The anchors [parse_yolo_output] iterates over: the rows of
    [output[0].T]. *)
Definition anchors (output : list (list (list Q))) : list (list Q) :=
  match output with
  | [] => []
  | output0 :: _ => Py.transpose output0
  end.

(** The corner box that the decoder computes for an anchor
    [(cx, cy, w, h)]. *)
Definition corner_box (cx cy w h : Q) : Box :=
  mkBox (Py.max 0 ((cx - w / 2) / 640)) (Py.max 0 ((cy - h / 2) / 640))
        (Py.min 1 ((cx + w / 2) / 640)) (Py.min 1 ((cy + h / 2) / 640)).

(** [0 <= x1 <= x2 <= 1] and [0 <= y1 <= y2 <= 1] *)
Definition in_unit_square (box : Box) : Prop :=
  (0 <= bx1 box /\ bx1 box <= bx2 box /\ bx2 box <= 1) /\
  (0 <= by1 box /\ by1 box <= by2 box /\ by2 box <= 1).

(** ** Sample inputs *)

Module Examples.

Definition coco : list string := ["person"; "bicycle"; "car"]%string.

(** A tensor of shape (1, 84, 1): one anchor centred at (700, 320), 20
    wide and 20 high, whose first class scores 0.9. *)
Definition anchor_past_right_edge : list (list (list Q)) :=
  [ [[700]; [320]; [20]; [20]; [9 # 10]] ++ repeat [0] 79 ].

(** A tensor of shape (1, 84, 1): one anchor, every class at 0.1. *)
Definition faint_anchor : list (list (list Q)) :=
  [ [[320]; [320]; [100]; [100]] ++ repeat [1 # 10] 80 ].

(** A tensor of shape (1, 84, 3): two anchors on nearly the same spot and
    a third one apart from them. *)
Definition three_anchors : list (list (list Q)) :=
  [ [[100; 104; 400]; [100; 100; 400]; [80; 80; 60]; [80; 80; 60];
     [8 # 10; 0; 0]; [0; 9 # 10; 0]; [0; 0; 6 # 10]]
      ++ repeat [0; 0; 0] 77 ].

Definition three_anchors_detections : list Detection :=
  [ mkDetection "bicycle" (9 # 10) (corner_box 104 100 80 80);
    mkDetection "car" (6 # 10) (corner_box 400 400 60 60) ].

(** Candidates for [apply_nms]: [b] covers [a] almost exactly, [c] lies
    apart. *)
Definition a : Detection :=
  mkDetection "a" (8 # 10) (mkBox 0 0 (1 # 2) (1 # 2)).
Definition b : Detection :=
  mkDetection "b" (9 # 10) (mkBox 0 0 (1 # 2) (11 # 20)).
Definition c : Detection :=
  mkDetection "c" (6 # 10) (mkBox (6 # 10) (6 # 10) 1 1).

(** A positive stand-in for [np.exp] that computes on rationals: 2 to
    the floor of [x]. *)
Definition exp2 (x : Q) : Q := 2 ^ Qfloor x.

(** Score vectors: probabilities, logits, and a quantized batch. *)
Definition probabilities : list Q := [1 # 10; 7 # 10; 5 # 100; 15 # 100].
Definition logits : list Q := [2; -1; 0].
Definition quantized : list byte := [Byte.x00; Byte.xff; Byte.x80].

End Examples.

(** * Vocabulary of the further properties *)

(** An anchor [(cx, cy, w, h, ...)] whose box has a non-negative width and
    height and reaches into the 640 by 640 frame of the model input. *)
Definition touches_frame (detection : list Q) : Prop :=
  match detection with
  | cx :: cy :: w :: h :: _ =>
      (0 <= w /\ cx - w / 2 <= 640 /\ 0 <= cx + w / 2) /\
      (0 <= h /\ cy - h / 2 <= 640 /\ 0 <= cy + h / 2)
  | _ => True
  end.

(** * The server around the decoders *)

(** The endpoints and the start-up code call into Pillow, TensorFlow Lite,
    the file system and the clock.  Those collaborators are gathered in a
    [World]; the control flow around them is the server's own. *)

Module Server.

(** What a [try] block can catch: an exception of the decoders, or one
    raised by a collaborator. *)
Inductive exception (Foreign : Type) : Type :=
| Builtin (e : exn)
| Raised (f : Foreign).
Arguments Builtin {Foreign} e.
Arguments Raised {Foreign} f.

Definition and_then {E A B} (m : E + A) (k : A -> E + B) : E + B :=
  match m with
  | inl e => inl e
  | inr a => k a
  end.

Notation "x <~ m ;; k" := (and_then m (fun x => k))
  (at level 61, m at next level, right associativity).

Definition builtin {Foreign A} (m : result A) : exception Foreign + A :=
  match m with
  | inl e => inl (Builtin e)
  | inr a => inr a
  end.

Record World : Type := {
  Interpreter : Type;
  Image : Type;
  Tensor : Type;
  UploadFile : Type;
  Path : Type;
  Foreign : Type;
  (* [await file.read()] *)
  file_read : UploadFile -> exception Foreign + list byte;
  (* [Image.open(io.BytesIO(image_bytes)).convert("RGB")] *)
  Image_open : list byte -> exception Foreign + Image;
  (* [image.size] *)
  image_size : Image -> Z * Z;
  (* [image.resize((n, n), Image.BILINEAR)] *)
  image_resize : Image -> Z -> exception Foreign + Image;
  (* [np.expand_dims(np.array(resized, dtype=np.float32) / 255.0, axis=0)] *)
  array_float32 : Image -> Tensor;
  (* [np.expand_dims(np.array(resized, dtype=np.uint8), axis=0)] *)
  array_uint8 : Image -> Tensor;
  (* [get_input_details()[0]['dtype'] == np.uint8] *)
  input_is_uint8 : Interpreter -> exception Foreign + bool;
  (* [set_tensor], [invoke], [get_tensor] on the detector *)
  yolo_invoke :
    Interpreter -> Tensor -> exception Foreign + list (list (list Q));
  (* [set_tensor], [invoke], [get_tensor] on the classifier *)
  efficientnet_invoke : Interpreter -> Tensor -> exception Foreign + ndarray;
  (* [round(x, 2)] and [np.exp] *)
  round2 : Q -> Q;
  np_exp : Q -> Q;
  (* [import tensorflow as tf] *)
  import_tensorflow : exception Foreign + unit;
  (* [path.exists()] *)
  path_exists : Path -> bool;
  (* [tf.lite.Interpreter(model_path=str(path))] *)
  Interpreter_new : Path -> exception Foreign + Interpreter;
  (* [interpreter.allocate_tensors()] *)
  allocate_tensors : Interpreter -> exception Foreign + unit;
  (* [open(path, 'r')] followed by [f.readlines()] *)
  readlines : Path -> exception Foreign + list string;
  (* [line.strip()] *)
  strip : string -> string;
  YOLO_MODEL_PATH : Path;
  EFFICIENTNET_MODEL_PATH : Path;
  COCO_LABELS_PATH : Path;
  IMAGENET_LABELS_PATH : Path
}.

(** The global model instances and label tables. *)
Record globals (w : World) : Type := mkGlobals {
  yolo_interpreter : option (Interpreter w);
  efficientnet_interpreter : option (Interpreter w);
  coco_labels : list string;
  imagenet_labels : list string
}.
Arguments mkGlobals {w}.
Arguments yolo_interpreter {w}.
Arguments efficientnet_interpreter {w}.
Arguments coco_labels {w}.
Arguments imagenet_labels {w}.

(** The globals as the module defines them, before start-up. *)
Definition initial_globals (w : World) : globals w :=
  mkGlobals None None [] [].

(** ** Response models *)

Record DetectionResponse : Type := mkDetectionResponse {
  success : bool;
  detections : list Detection;
  inference_time_ms : Q
}.

Record ClassificationResponse : Type := mkClassificationResponse {
  c_success : bool;
  classifications : list Classification;
  c_inference_time_ms : Q
}.

(** [features] is a dict; its items are kept in insertion order. *)
Record ConfigResponse : Type := mkConfigResponse {
  app_version : string;
  min_confidence_detection : Q;
  min_confidence_classification : Q;
  models_available : list string;
  features : list (string * bool)
}.

(** [d[key]] on the items of a dict. *)
Fixpoint dict_get (d : list (string * bool)) (key : string) : option bool :=
  match d with
  | [] => None
  | (k, v) :: d' => if String.eqb k key then Some v else dict_get d' key
  end.

(** [HTTPException(status_code, detail)]; the detail is a fixed message or
    [str(e)] of the exception caught. *)
Inductive detail (w : World) : Type :=
| Message (s : string)
| StrOf (e : exception (Foreign w)).
Arguments Message {w} s.
Arguments StrOf {w} e.

Record HTTPException (w : World) : Type := mkHTTPException {
  status_code : nat;
  http_detail : detail w
}.
Arguments mkHTTPException {w}.
Arguments status_code {w}.
Arguments http_detail {w}.

(** ** [load_labels] and [load_models] *)

Definition load_labels (w : World) (path : Path w)
  : exception (Foreign w) + list string :=
  if negb (path_exists w path) then inr []
  else
    lines <~ readlines w path ;;
    inr (map (strip w) lines).

(** The body of the [try] of [load_models] assigns to the globals as it
    goes: a step takes the globals and gives them back, with a value or
    with the exception that ends the block. *)
Definition step (w : World) (A : Type) : Type :=
  globals w -> globals w * (exception (Foreign w) + A).

Definition ret {w A} (a : A) : step w A := fun g => (g, inr a).

Definition call {w A} (m : exception (Foreign w) + A) : step w A :=
  fun g => (g, m).

Definition assign {w} (f : globals w -> globals w) : step w unit :=
  fun g => (f g, inr tt).

Definition seq_step {w A B} (m : step w A) (k : A -> step w B) : step w B :=
  fun g =>
    match m g with
    | (g', inl e) => (g', inl e)
    | (g', inr a) => k a g'
    end.

Notation "x <$ m ;; k" := (seq_step m (fun x => k))
  (at level 61, m at next level, right associativity).

(** The blocks under [# Load YOLOv8 model] and [# Load EfficientNet
    model]: the global is assigned before [allocate_tensors] runs. *)
Definition load_yolo (w : World) : step w unit :=
  if path_exists w (YOLO_MODEL_PATH w) then
    i <$ call (Interpreter_new w (YOLO_MODEL_PATH w)) ;;
    _ <$ assign (fun g =>
                   mkGlobals (Some i) (efficientnet_interpreter g)
                     (coco_labels g) (imagenet_labels g)) ;;
    call (allocate_tensors w i)
  else ret tt.

Definition load_efficientnet (w : World) : step w unit :=
  if path_exists w (EFFICIENTNET_MODEL_PATH w) then
    i <$ call (Interpreter_new w (EFFICIENTNET_MODEL_PATH w)) ;;
    _ <$ assign (fun g =>
                   mkGlobals (yolo_interpreter g) (Some i)
                     (coco_labels g) (imagenet_labels g)) ;;
    call (allocate_tensors w i)
  else ret tt.

(** The block under [# Load labels]. *)
Definition load_label_tables (w : World) : step w unit :=
  l <$ call (load_labels w (COCO_LABELS_PATH w)) ;;
  _ <$ assign (fun g =>
                 mkGlobals (yolo_interpreter g) (efficientnet_interpreter g)
                   l (imagenet_labels g)) ;;
  l <$ call (load_labels w (IMAGENET_LABELS_PATH w)) ;;
  assign (fun g =>
            mkGlobals (yolo_interpreter g) (efficientnet_interpreter g)
              (coco_labels g) l).

Definition load_models_try (w : World) : step w unit :=
  _ <$ call (import_tensorflow w) ;;
  _ <$ load_yolo w ;;
  _ <$ load_efficientnet w ;;
  load_label_tables w.

(** [except Exception as e:] only logs: the globals stay as the block
    left them. *)
Definition load_models (w : World) (g : globals w) : globals w :=
  fst (load_models_try w g).

(** [startup_event] *)
Definition startup_event (w : World) : globals w :=
  load_models w (initial_globals w).

(** ** [get_config] *)

Definition get_config (w : World) (g : globals w) : ConfigResponse :=
  let models := [] in
  let models :=
    match yolo_interpreter g with
    | Some _ => models ++ ["yolov8n"%string]
    | None => models
    end in
  let models :=
    match efficientnet_interpreter g with
    | Some _ => models ++ ["efficientnet_lite0"%string]
    | None => models
    end in
  mkConfigResponse "2.0.0" (25 # 100) (1 # 10) models
    [ ("object_detection"%string,
        match yolo_interpreter g with Some _ => true | None => false end);
      ("image_classification"%string,
        match efficientnet_interpreter g with
        | Some _ => true
        | None => false
        end);
      ("ai_log"%string, true);
      ("export"%string, true) ].

(** ** [detect_objects] and [classify_image] *)

(** [start_time] and [end_time] are the two readings of [time.time()]. *)
Definition detect_objects (w : World) (g : globals w) (file : UploadFile w)
  (start_time end_time : Q) : HTTPException w + DetectionResponse :=
  match yolo_interpreter g with
  | None => inl (mkHTTPException 503 (Message "YOLOv8 model not loaded"))
  | Some yolo =>
      let attempt :=
        image_bytes <~ file_read w file ;;
        image <~ Image_open w image_bytes ;;
        let '(original_width, original_height) := image_size w image in
        let input_size := 640%Z in
        resized <~ image_resize w image input_size ;;
        let input_data := array_float32 w resized in
        output <~ yolo_invoke w yolo input_data ;;
        detections <~
          builtin (parse_yolo_output (coco_labels g) output
                     original_width original_height (25 # 100) (45 # 100)) ;;
        let inference_time := (end_time - start_time) * 1000 in
        inr (mkDetectionResponse true detections
               (round2 w inference_time)) in
      match attempt with
      | inr response => inr response
      | inl e => inl (mkHTTPException 500 (StrOf e))
      end
  end.

Definition classify_image (w : World) (g : globals w) (file : UploadFile w)
  (start_time end_time : Q) : HTTPException w + ClassificationResponse :=
  match efficientnet_interpreter g with
  | None =>
      inl (mkHTTPException 503 (Message "EfficientNet model not loaded"))
  | Some efficientnet =>
      let attempt :=
        image_bytes <~ file_read w file ;;
        image <~ Image_open w image_bytes ;;
        let input_size := 224%Z in
        resized <~ image_resize w image input_size ;;
        uint8 <~ input_is_uint8 w efficientnet ;;
        let input_data :=
          if uint8 then array_uint8 w resized
          else array_float32 w resized in
        output <~ efficientnet_invoke w efficientnet input_data ;;
        classifications <~
          builtin (parse_efficientnet_output (imagenet_labels g)
                     (np_exp w) output 3) ;;
        let inference_time := (end_time - start_time) * 1000 in
        inr (mkClassificationResponse true classifications
               (round2 w inference_time)) in
      match attempt with
      | inr response => inr response
      | inl e => inl (mkHTTPException 500 (StrOf e))
      end
  end.

End Server.

(** ** A sample world *)

(** Paths are strings and the files present are the detector's model and
    the COCO labels; every upload decodes to a 1920 by 1080 image; the
    detector answers with [Examples.three_anchors] and the classifier with
    the quantized scores [Examples.quantized]. *)
Definition sample_world : Server.World :=
  {| Server.Interpreter := string;
     Server.Image := unit;
     Server.Tensor := bool;
     Server.UploadFile := list byte;
     Server.Path := string;
     Server.Foreign := string;
     Server.file_read := fun file => inr file;
     Server.Image_open := fun _ => inr tt;
     Server.image_size := fun _ => (1920%Z, 1080%Z);
     Server.image_resize := fun image _ => inr image;
     Server.array_float32 := fun _ => false;
     Server.array_uint8 := fun _ => true;
     Server.input_is_uint8 := fun _ => inr true;
     Server.yolo_invoke := fun _ _ => inr Examples.three_anchors;
     Server.efficientnet_invoke :=
       fun _ _ => inr (UInt8 [Examples.quantized]);
     Server.round2 := fun x => x;
     Server.np_exp := Examples.exp2;
     Server.import_tensorflow := inr tt;
     Server.path_exists :=
       fun path =>
         (String.eqb path "yolov8n.tflite"
          || String.eqb path "coco_labels.txt")%bool;
     Server.Interpreter_new := fun path => inr path;
     Server.allocate_tensors := fun _ => inr tt;
     Server.readlines := fun _ => inr Examples.coco;
     Server.strip := fun line => line;
     Server.YOLO_MODEL_PATH := "yolov8n.tflite"%string;
     Server.EFFICIENTNET_MODEL_PATH := "efficientnet_lite0.tflite"%string;
     Server.COCO_LABELS_PATH := "coco_labels.txt"%string;
     Server.IMAGENET_LABELS_PATH := "imagenet_labels.txt"%string |}.

(** The same world with a TensorFlow that fails to allocate tensors. *)
Definition failing_world : Server.World :=
  {| Server.Interpreter := string;
     Server.Image := unit;
     Server.Tensor := bool;
     Server.UploadFile := list byte;
     Server.Path := string;
     Server.Foreign := string;
     Server.file_read := fun file => inr file;
     Server.Image_open := fun _ => inr tt;
     Server.image_size := fun _ => (1920%Z, 1080%Z);
     Server.image_resize := fun image _ => inr image;
     Server.array_float32 := fun _ => false;
     Server.array_uint8 := fun _ => true;
     Server.input_is_uint8 := fun _ => inr true;
     Server.yolo_invoke := fun _ _ => inr Examples.three_anchors;
     Server.efficientnet_invoke :=
       fun _ _ => inr (UInt8 [Examples.quantized]);
     Server.round2 := fun x => x;
     Server.np_exp := Examples.exp2;
     Server.import_tensorflow := inr tt;
     Server.path_exists := fun _ => true;
     Server.Interpreter_new := fun path => inr path;
     Server.allocate_tensors :=
       fun _ => inl (Server.Raised "allocation failed"%string);
     Server.readlines := fun _ => inr Examples.coco;
     Server.strip := fun line => line;
     Server.YOLO_MODEL_PATH := "yolov8n.tflite"%string;
     Server.EFFICIENTNET_MODEL_PATH := "efficientnet_lite0.tflite"%string;
     Server.COCO_LABELS_PATH := "coco_labels.txt"%string;
     Server.IMAGENET_LABELS_PATH := "imagenet_labels.txt"%string |}.

(** * Properties *)

(** ** The error monad *)

Lemma bind_Ok {A B} (a : A) (k : A -> result B) : bind (Ok a) k = k a.
Proof. reflexivity. Qed.

Lemma bind_inv {A B} (m : result A) (k : A -> result B) b :
  bind m k = Ok b -> exists a, m = Ok a /\ k a = Ok b.
Proof.
  destruct m as [e | a]; [discriminate | intros H; now exists a].
Qed.

(** ** Comparisons, [max] and [min] *)

Lemma ltb_true a b : Py.ltb a b = true <-> a < b.
Proof.
  unfold Py.ltb. rewrite negb_true_iff, <- not_true_iff_false, Qle_bool_iff.
  split; [apply Qnot_le_lt | apply Qlt_not_le].
Qed.

Lemma ltb_false a b : Py.ltb a b = false <-> b <= a.
Proof.
  unfold Py.ltb. rewrite negb_false_iff. apply Qle_bool_iff.
Qed.

Lemma geb_true a b : Py.geb a b = true <-> b <= a.
Proof. apply Qle_bool_iff. Qed.

Lemma geb_false a b : Py.geb a b = false <-> a < b.
Proof.
  unfold Py.geb. rewrite <- not_true_iff_false, Qle_bool_iff.
  split; [apply Qnot_le_lt | apply Qlt_not_le].
Qed.

(** Case analysis on every comparison of the goal, innermost first, each
    case with the order fact it stands for. *)
Ltac no_test t :=
  lazymatch t with
  | context [Py.ltb _ _] => fail
  | context [Py.geb _ _] => fail
  | _ => idtac
  end.

Ltac py_cases :=
  repeat match goal with
    | |- context [Py.ltb ?a ?b] =>
        no_test a; no_test b;
        let E := fresh "E" in
        destruct (Py.ltb a b) eqn:E;
        [apply ltb_true in E | apply ltb_false in E]
    | |- context [Py.geb ?a ?b] =>
        no_test a; no_test b;
        let E := fresh "E" in
        destruct (Py.geb a b) eqn:E;
        [apply geb_true in E | apply geb_false in E]
    end.

Lemma max_lub a b : a <= Py.max a b /\ b <= Py.max a b.
Proof. unfold Py.max. py_cases; lra. Qed.

Lemma min_glb a b : Py.min a b <= a /\ Py.min a b <= b.
Proof. unfold Py.min. py_cases; lra. Qed.

Lemma max_0_pos v : 0 < Py.max 0 v -> Py.max 0 v = v /\ 0 < v.
Proof. unfold Py.max. py_cases; intros; [auto | lra]. Qed.

Lemma max_0_nonpos v : v <= 0 -> Py.max 0 v = 0.
Proof. unfold Py.max. py_cases; intros; [lra | reflexivity]. Qed.

(** ** [compute_iou] *)

Lemma inter_area_nonneg a b : 0 <= inter_area a b.
Proof.
  unfold inter_area. cbv zeta.
  apply Qmult_le_0_compat; apply (max_lub 0).
Qed.

(** A positive intersection is a rectangle inside both boxes. *)
Lemma inter_area_le_l a b : 0 < inter_area a b -> inter_area a b <= box_area a.
Proof.
  unfold inter_area, box_area. cbv zeta.
  set (dx := Py.min (bx2 a) (bx2 b) - Py.max (bx1 a) (bx1 b)).
  set (dy := Py.min (by2 a) (by2 b) - Py.max (by1 a) (by1 b)).
  intros H.
  assert (Hx : 0 <= Py.max 0 dx) by apply (max_lub 0).
  assert (Hy : 0 <= Py.max 0 dy) by apply (max_lub 0).
  assert (Hx' : 0 < Py.max 0 dx) by nra.
  assert (Hy' : 0 < Py.max 0 dy) by nra.
  destruct (max_0_pos _ Hx') as [-> Px], (max_0_pos _ Hy') as [-> Py'].
  pose proof (max_lub (bx1 a) (bx1 b)). pose proof (min_glb (bx2 a) (bx2 b)).
  pose proof (max_lub (by1 a) (by1 b)). pose proof (min_glb (by2 a) (by2 b)).
  subst dx dy. nra.
Qed.

Lemma max_comm a b : Py.max a b == Py.max b a.
Proof. unfold Py.max. py_cases; lra. Qed.

Lemma min_comm a b : Py.min a b == Py.min b a.
Proof. unfold Py.min. py_cases; lra. Qed.

Lemma overlap_comm a1 a2 b1 b2 :
  Py.max 0 (Py.min a2 b2 - Py.max a1 b1) ==
  Py.max 0 (Py.min b2 a2 - Py.max b1 a1).
Proof. unfold Py.max, Py.min. py_cases; lra. Qed.

Lemma inter_area_comm a b : inter_area a b == inter_area b a.
Proof.
  unfold inter_area. cbv zeta. apply Qmult_comp; apply overlap_comm.
Qed.

Lemma union_area_comm a b : union_area a b == union_area b a.
Proof. unfold union_area. rewrite (inter_area_comm a b). ring. Qed.

Lemma inter_area_le_r a b : 0 < inter_area a b -> inter_area a b <= box_area b.
Proof.
  rewrite (inter_area_comm a b). apply inter_area_le_l.
Qed.

Lemma compute_iou_comm a b : compute_iou a b == compute_iou b a.
Proof.
  unfold compute_iou.
  pose proof (union_area_comm a b) as U.
  pose proof (inter_area_comm a b) as I.
  py_cases; try lra.
  rewrite U, I. reflexivity.
Qed.

Lemma compute_iou_range a b : 0 <= compute_iou a b <= 1.
Proof.
  unfold compute_iou.
  pose proof (inter_area_nonneg a b) as I.
  py_cases; [| lra].
  assert (L : inter_area a b <= union_area a b).
  { destruct (Qlt_le_dec 0 (inter_area a b)) as [P | Z]; [| lra].
    pose proof (inter_area_le_l a b P). pose proof (inter_area_le_r a b P).
    unfold union_area. lra. }
  split.
  - apply Qle_shift_div_l; [assumption | lra].
  - apply Qle_shift_div_r; [assumption | lra].
Qed.

Lemma inter_area_non_overlapping a b :
  non_overlapping a b -> inter_area a b == 0.
Proof.
  intros H. unfold inter_area. cbv zeta.
  pose proof (max_lub (bx1 a) (bx1 b)). pose proof (min_glb (bx2 a) (bx2 b)).
  pose proof (max_lub (by1 a) (by1 b)). pose proof (min_glb (by2 a) (by2 b)).
  destruct H as [H | [H | [H | H]]].
  1, 2: rewrite (max_0_nonpos (_ - Py.max (bx1 a) _)) by lra; ring.
  1, 2: rewrite (max_0_nonpos (_ - Py.max (by1 a) _)) by lra; ring.
Qed.

Lemma inter_area_self a :
  bx1 a <= bx2 a -> by1 a <= by2 a -> inter_area a a == box_area a.
Proof.
  intros Hx Hy. unfold inter_area, box_area, Py.max, Py.min. cbv zeta.
  py_cases; nra.
Qed.

(** C4.  [compute_iou] returns a value in [0,1] for every pair of boxes;
    when the union area is not positive it returns 0 (and so never
    divides by zero); a corner-format box ([x1 <= x2], [y1 <= y2]) of
    positive area has IOU 1 with itself; two boxes that do not overlap
    have IOU 0. *)
Theorem compute_iou_spec :
  (forall a b, 0 <= compute_iou a b <= 1) /\
  (forall a b, union_area a b <= 0 -> compute_iou a b = 0) /\
  (forall a, bx1 a <= bx2 a -> by1 a <= by2 a -> 0 < box_area a ->
             compute_iou a a == 1) /\
  (forall a b, non_overlapping a b -> compute_iou a b == 0).
Proof.
  split; [exact compute_iou_range |].
  split; [| split].
  - intros a b U. unfold compute_iou. py_cases; [lra | reflexivity].
  - intros a Hx Hy P. unfold compute_iou.
    pose proof (inter_area_self a Hx Hy) as I.
    assert (U : union_area a a == box_area a) by (unfold union_area; lra).
    py_cases; [| lra].
    rewrite U, I. field. lra.
  - intros a b H. unfold compute_iou.
    pose proof (inter_area_non_overlapping a b H) as I.
    py_cases; [| reflexivity].
    rewrite I. field. lra.
Qed.

(** ** [sorted(..., reverse=True)] *)

Section SortedFacts.
Context {A : Type} (key : A -> Q).

Lemma insert_reverse_In x l y :
  In y (Py.insert_reverse key x l) <-> y = x \/ In y l.
Proof.
  induction l as [| z l IH]; simpl.
  - intuition.
  - destruct (Py.ltb (key x) (key z)); simpl; rewrite ?IH; intuition.
Qed.

Lemma sorted_reverse_In l y : In y (Py.sorted_reverse key l) <-> In y l.
Proof.
  induction l as [| x l IH]; simpl; [reflexivity |].
  rewrite insert_reverse_In, IH. intuition.
Qed.

Lemma insert_reverse_sorted x l :
  StronglySorted (before key) l ->
  StronglySorted (before key) (Py.insert_reverse key x l).
Proof.
  induction 1 as [| z l S IH F]; simpl.
  - repeat constructor.
  - destruct (Py.ltb (key x) (key z)) eqn:E.
    + apply ltb_true in E. constructor; [exact IH |].
      apply Forall_forall. intros y Hy.
      apply insert_reverse_In in Hy. destruct Hy as [-> | Hy].
      * unfold before. lra.
      * rewrite Forall_forall in F. auto.
    + apply ltb_false in E. constructor; [constructor; assumption |].
      constructor; [exact E |].
      apply Forall_forall. intros y Hy.
      rewrite Forall_forall in F. specialize (F y Hy).
      unfold before in *. lra.
Qed.

Lemma sorted_reverse_sorted l :
  StronglySorted (before key) (Py.sorted_reverse key l).
Proof.
  induction l; simpl; [constructor | now apply insert_reverse_sorted].
Qed.

(** Sorting is stable: a list already in order comes back as it is. *)
Lemma sorted_reverse_id l :
  StronglySorted (before key) l -> Py.sorted_reverse key l = l.
Proof.
  induction 1 as [| x l S IH F]; simpl; [reflexivity |].
  rewrite IH. destruct F as [| y l Hy F]; simpl; [reflexivity |].
  apply ltb_false in Hy. now rewrite Hy.
Qed.

Lemma sorted_filter (p : A -> bool) l :
  StronglySorted (before key) l -> StronglySorted (before key) (filter p l).
Proof.
  induction 1 as [| x l S IH F]; simpl; [constructor |].
  destruct (p x); [| exact IH].
  constructor; [exact IH |].
  apply Forall_forall. intros y Hy. apply filter_In in Hy.
  rewrite Forall_forall in F. apply F, Hy.
Qed.

Lemma sorted_firstn n l :
  StronglySorted (before key) l -> StronglySorted (before key) (firstn n l).
Proof.
  intros S. revert n.
  induction S as [| x l S IH F]; intros [| n]; simpl; try constructor.
  - apply IH.
  - apply Forall_forall. intros y Hy.
    rewrite Forall_forall in F. apply F.
    rewrite <- (firstn_skipn n l). apply in_or_app. now left.
Qed.
End SortedFacts.

(** ** [apply_nms] *)

Section Suppressor.
Variable iou_threshold : Q.

(** The loop only ever appends to [keep]. *)
Lemma nms_loop_keep detections :
  forall keep,
    nms_loop iou_threshold keep detections =
    keep ++ nms_loop iou_threshold [] detections.
Proof.
  remember (List.length detections) as n eqn:Hn.
  revert detections Hn.
  induction n as [n IH] using lt_wf_ind.
  intros [| best rest] Hn keep; simp nms_loop.
  - now rewrite app_nil_r.
  - match goal with
    | |- context [filter ?p rest] => set (rest' := filter p rest)
    end.
    assert (L : (List.length rest' < n)%nat).
    { subst n. simpl. apply Nat.lt_succ_r, filter_length_le. }
    rewrite (IH _ L _ eq_refl (keep ++ [best])).
    rewrite (IH _ L _ eq_refl ([] ++ [best])).
    now rewrite <- !app_assoc.
Qed.

Lemma nms_loop_cons best rest :
  nms_loop iou_threshold [] (best :: rest) =
  best ::
    nms_loop iou_threshold []
      (filter
         (fun d => Py.ltb (compute_iou (bbox best) (bbox d)) iou_threshold)
         rest).
Proof.
  simp nms_loop. now rewrite nms_loop_keep.
Qed.

(** Induction along the rounds of the loop. *)
Lemma nms_loop_rounds (P : list Detection -> list Detection -> Prop) :
  P [] [] ->
  (forall best rest,
      let rest' :=
        filter
          (fun d => Py.ltb (compute_iou (bbox best) (bbox d)) iou_threshold)
          rest in
      P rest' (nms_loop iou_threshold [] rest') ->
      P (best :: rest) (best :: nms_loop iou_threshold [] rest')) ->
  forall detections, P detections (nms_loop iou_threshold [] detections).
Proof.
  intros Hnil Hcons detections.
  remember (List.length detections) as n eqn:Hn.
  revert detections Hn.
  induction n as [n IH] using lt_wf_ind.
  intros [| best rest] Hn.
  - simp nms_loop.
  - rewrite nms_loop_cons. apply Hcons.
    eapply IH; [| reflexivity].
    subst n. simpl. apply Nat.lt_succ_r, filter_length_le.
Qed.

(** Every kept detection is one of the candidates. *)
Lemma nms_loop_In detections d :
  In d (nms_loop iou_threshold [] detections) -> In d detections.
Proof.
  revert d. pattern detections, (nms_loop iou_threshold [] detections).
  apply nms_loop_rounds; [easy |].
  intros best rest rest' IH d [-> | Hd]; [now left | right].
  apply IH in Hd. apply filter_In in Hd. apply Hd.
Qed.

Lemma nms_loop_sorted detections :
  descending detections -> descending (nms_loop iou_threshold [] detections).
Proof.
  pattern detections, (nms_loop iou_threshold [] detections).
  apply nms_loop_rounds; [easy |].
  intros best rest rest' IH S.
  apply StronglySorted_inv in S. destruct S as [S F].
  constructor.
  - apply IH. now apply sorted_filter.
  - apply Forall_forall. intros d Hd.
    apply nms_loop_In, filter_In in Hd.
    rewrite Forall_forall in F. apply F, Hd.
Qed.

(** Whatever is kept later has survived every detection kept earlier. *)
Lemma nms_loop_pairs detections :
  ForallOrdPairs
    (fun a b => compute_iou (bbox a) (bbox b) < iou_threshold)
    (nms_loop iou_threshold [] detections).
Proof.
  pattern detections, (nms_loop iou_threshold [] detections).
  apply nms_loop_rounds; [constructor |].
  intros best rest rest' IH. constructor; [| exact IH].
  apply Forall_forall. intros d Hd.
  apply nms_loop_In, filter_In in Hd. destruct Hd as [_ Hd].
  now apply ltb_true in Hd.
Qed.

(** A list without a suppressing pair passes the loop untouched. *)
Lemma nms_loop_fixed detections :
  ForallOrdPairs
    (fun a b => compute_iou (bbox a) (bbox b) < iou_threshold) detections ->
  nms_loop iou_threshold [] detections = detections.
Proof.
  induction 1 as [| best rest F _ IH]; [now simp nms_loop |].
  rewrite nms_loop_cons. f_equal.
  rewrite forallb_filter_id; [exact IH |].
  apply forallb_forall. intros d Hd.
  rewrite Forall_forall in F. apply ltb_true, F, Hd.
Qed.

Lemma apply_nms_loop detections :
  apply_nms detections iou_threshold =
  nms_loop iou_threshold [] (Py.sorted_reverse confidence detections).
Proof.
  destruct detections; [now simp nms_loop | reflexivity].
Qed.
End Suppressor.

Lemma ForallOrdPairs_nth_error {A} (R : A -> A -> Prop) l :
  ForallOrdPairs R l ->
  forall i j a b,
    (i < j)%nat -> nth_error l i = Some a -> nth_error l j = Some b -> R a b.
Proof.
  induction 1 as [| x l F _ IH]; intros i j a b Hij Ha Hb.
  - now destruct i.
  - destruct j as [| j]; [lia |]. simpl in Hb.
    destruct i as [| i]; simpl in Ha.
    + injection Ha as ->. rewrite Forall_forall in F.
      eapply F, nth_error_In, Hb.
    + apply (IH i j); [lia | assumption | assumption].
Qed.

Lemma apply_nms_sorted detections iou_threshold :
  descending (apply_nms detections iou_threshold).
Proof.
  rewrite apply_nms_loop. apply nms_loop_sorted, sorted_reverse_sorted.
Qed.

Lemma apply_nms_In detections iou_threshold d :
  In d (apply_nms detections iou_threshold) -> In d detections.
Proof.
  rewrite apply_nms_loop. intros H.
  apply nms_loop_In in H. now apply sorted_reverse_In in H.
Qed.

(** C3.  No two detections kept by [apply_nms], taken at two different
    positions of its result, have an IOU that reaches the threshold. *)
Theorem apply_nms_no_pair_at_threshold detections iou_threshold i j a b :
  i <> j ->
  nth_error (apply_nms detections iou_threshold) i = Some a ->
  nth_error (apply_nms detections iou_threshold) j = Some b ->
  ~ iou_threshold <= compute_iou (bbox a) (bbox b).
Proof.
  intros Hij Ha Hb. apply Qlt_not_le.
  rewrite apply_nms_loop in Ha, Hb.
  pose proof (nms_loop_pairs iou_threshold
                (Py.sorted_reverse confidence detections)) as P.
  destruct (Nat.lt_total i j) as [L | [E | L]]; [| contradiction |].
  - exact (ForallOrdPairs_nth_error _ _ P i j a b L Ha Hb).
  - rewrite compute_iou_comm.
    exact (ForallOrdPairs_nth_error _ _ P j i b a L Hb Ha).
Qed.

(** C9.  [apply_nms] is idempotent: a second pass over its own result,
    with the same threshold, returns that result unchanged. *)
Theorem apply_nms_idempotent detections iou_threshold :
  apply_nms (apply_nms detections iou_threshold) iou_threshold =
  apply_nms detections iou_threshold.
Proof.
  rewrite (apply_nms_loop iou_threshold (apply_nms _ _)).
  rewrite (sorted_reverse_id confidence) by apply apply_nms_sorted.
  rewrite apply_nms_loop.
  apply nms_loop_fixed, nms_loop_pairs.
Qed.

(** ** [parse_yolo_output] *)

Section DetectionDecoder.
Variable coco_labels : list string.
Variable conf_threshold : Q.

(** What one round of the loop appends. *)
Lemma decode_anchor_Some detection d :
  decode_anchor coco_labels conf_threshold detection = Ok (Some d) ->
  exists cx cy w h rest,
    detection = cx :: cy :: w :: h :: rest /\
    conf_threshold <= confidence d /\
    bbox d = mkBox (Py.max 0 ((cx - w / 2) / 640))
                   (Py.max 0 ((cy - h / 2) / 640))
                   (Py.min 1 ((cx + w / 2) / 640))
                   (Py.min 1 ((cy + h / 2) / 640)).
Proof.
  unfold decode_anchor.
  destruct detection as [| cx [| cy [| w [| h rest]]]]; try discriminate.
  change (Py.slice 0 4 (cx :: cy :: w :: h :: rest)) with [cx; cy; w; h].
  cbv iota beta.
  destruct (Py.np_max _) as [e | max_score]; [discriminate |].
  destruct (Py.np_argmax _) as [e | class_id]; [discriminate |].
  cbn [bind]. destruct (Py.geb max_score conf_threshold) eqn:G;
    [| discriminate].
  intros [= <-]. exists cx, cy, w, h, rest.
  apply geb_true in G. auto.
Qed.

(** An anchor whose best class score stays below the threshold appends
    nothing. *)
Lemma decode_anchor_None detection m :
  Py.np_max (Py.slice 4 (4 + num_classes) detection) = Ok m ->
  m < conf_threshold ->
  decode_anchor coco_labels conf_threshold detection = Ok None.
Proof.
  intros Hm Hlt. unfold decode_anchor.
  destruct detection as [| cx [| cy [| w [| h rest]]]]; try discriminate.
  change (Py.slice 0 4 (cx :: cy :: w :: h :: rest)) with [cx; cy; w; h].
  cbv iota beta. rewrite Hm. cbn [bind].
  destruct (Py.slice 4 (4 + num_classes) (cx :: cy :: w :: h :: rest));
    [discriminate |].
  cbn [Py.np_argmax]. rewrite !bind_Ok.
  apply geb_false in Hlt. now rewrite Hlt.
Qed.

Lemma scan_anchors_Forall (P : Detection -> Prop) rows :
  (forall detection d,
      In detection rows ->
      decode_anchor coco_labels conf_threshold detection = Ok (Some d) ->
      P d) ->
  forall detections result,
    Forall P detections ->
    scan_anchors coco_labels conf_threshold rows detections = Ok result ->
    Forall P result.
Proof.
  induction rows as [| detection rows IH]; intros HP detections result F.
  - now intros [= <-].
  - simpl.
    destruct (decode_anchor coco_labels conf_threshold detection)
      as [e | [d |]] eqn:D; cbn [bind]; [discriminate | |].
    + apply IH; [intros; eapply HP; [right |]; eassumption |].
      apply Forall_app. split; [exact F |].
      constructor; [| constructor]. eapply HP; [left; reflexivity | exact D].
    + apply IH; [intros; eapply HP; [right |]; eassumption | exact F].
Qed.

Lemma scan_anchors_all_None rows :
  Forall (fun detection =>
            decode_anchor coco_labels conf_threshold detection = Ok None)
         rows ->
  forall detections,
    scan_anchors coco_labels conf_threshold rows detections = Ok detections.
Proof.
  induction 1 as [| detection rows D _ IH]; intros detections; simpl.
  - reflexivity.
  - rewrite D, bind_Ok. apply IH.
Qed.
End DetectionDecoder.

Section DetectionClaims.
Variable coco_labels : list string.

(** The detections that reach [apply_nms] all stem from an anchor. *)
Lemma parse_yolo_output_inv output orig_width orig_height
      conf_threshold iou_threshold result :
  parse_yolo_output coco_labels output orig_width orig_height
    conf_threshold iou_threshold = Ok result ->
  exists detections,
    scan_anchors coco_labels conf_threshold (anchors output) [] =
      Ok detections /\
    result = firstn 10 (apply_nms detections iou_threshold).
Proof.
  unfold parse_yolo_output. destruct output as [| output0 ?];
    [discriminate |].
  intros H. apply bind_inv in H. destruct H as (detections & S & [= <-]).
  now exists detections.
Qed.

Lemma firstn_In {A} n (l : list A) x : In x (firstn n l) -> In x l.
Proof.
  intros H. rewrite <- (firstn_skipn n l). apply in_or_app. now left.
Qed.

(** The clamp is one-sided: [x1], [y1] are floored at 0 and [x2], [y2]
    capped at 1, and nothing more. *)
Lemma corner_box_bounds cx cy w h :
  let box := corner_box cx cy w h in
  0 <= bx1 box /\ 0 <= by1 box /\ bx2 box <= 1 /\ by2 box <= 1.
Proof.
  simpl. repeat split; first [apply (max_lub 0) | apply (min_glb 1)].
Qed.

(** C1.  The code does not keep every returned box inside the unit
    square.  For the one-anchor tensor [Examples.anchor_past_right_edge]
    (centre x = 700, width 20) [parse_yolo_output] returns one detection
    whose [x1] is 1380/1280: above 1 and above its [x2], which was capped
    at 1.  So [0 <= x1 <= x2 <= 1] fails for that box. *)
Theorem parse_yolo_output_box_outside_unit_square :
  let d := mkDetection (label_of coco_labels 0) (9 # 10)
             (mkBox (1380 # 1280) (620 # 1280) 1 (660 # 1280)) in
  parse_yolo_output coco_labels Examples.anchor_past_right_edge 640 640
    (1 # 4) (45 # 100) = Ok [d] /\
  1 < bx1 (bbox d) /\ bx2 (bbox d) < bx1 (bbox d) /\
  ~ in_unit_square (bbox d).
Proof.
  cbv zeta. split; [reflexivity |].
  split; [reflexivity |]. split; [reflexivity |].
  intros [(_ & H & _) _]. revert H. now vm_compute.
Qed.

(** C2.  A successful [parse_yolo_output] returns at most 10
    detections, each with a confidence of at least [conf_threshold],
    in order of non-increasing confidence. *)
Theorem parse_yolo_output_top10 output orig_width orig_height
        conf_threshold iou_threshold result :
  parse_yolo_output coco_labels output orig_width orig_height
    conf_threshold iou_threshold = Ok result ->
  (List.length result <= 10)%nat /\
  Forall (fun d => conf_threshold <= confidence d) result /\
  descending result.
Proof.
  intros H. apply parse_yolo_output_inv in H.
  destruct H as (detections & S & ->).
  split; [apply firstn_le_length |]. split.
  - apply Forall_forall. intros d Hd.
    apply firstn_In, apply_nms_In in Hd. revert d Hd.
    apply Forall_forall.
    eapply scan_anchors_Forall; [| constructor | exact S].
    intros detection d _ D.
    apply decode_anchor_Some in D.
    now destruct D as (? & ? & ? & ? & ? & _ & C & _).
  - apply sorted_firstn, apply_nms_sorted.
Qed.

(** C6.  The result of [parse_yolo_output] does not depend on
    [orig_width] and [orig_height], and every returned box is the corner
    box of an anchor of the tensor, scaled by the model input size 640
    alone. *)
Theorem parse_yolo_output_ignores_image_size output
        conf_threshold iou_threshold :
  (forall orig_width orig_height orig_width' orig_height',
      parse_yolo_output coco_labels output orig_width orig_height
        conf_threshold iou_threshold =
      parse_yolo_output coco_labels output orig_width' orig_height'
        conf_threshold iou_threshold) /\
  (forall orig_width orig_height result d,
      parse_yolo_output coco_labels output orig_width orig_height
        conf_threshold iou_threshold = Ok result ->
      In d result ->
      exists cx cy w h rest,
        In (cx :: cy :: w :: h :: rest) (anchors output) /\
        bbox d = mkBox (Py.max 0 ((cx - w / 2) / 640))
                       (Py.max 0 ((cy - h / 2) / 640))
                       (Py.min 1 ((cx + w / 2) / 640))
                       (Py.min 1 ((cy + h / 2) / 640))).
Proof.
  split; [reflexivity |].
  intros orig_width orig_height result d H Hd.
  apply parse_yolo_output_inv in H. destruct H as (detections & S & ->).
  apply firstn_In, apply_nms_In in Hd. revert d Hd. apply Forall_forall.
  eapply scan_anchors_Forall; [| constructor | exact S].
  intros detection d Hin D.
  apply decode_anchor_Some in D.
  destruct D as (cx & cy & w & h & rest & -> & _ & B).
  now exists cx, cy, w, h, rest.
Qed.

(** C7.  When the best class score of every anchor is below
    [conf_threshold], [parse_yolo_output] succeeds with the empty list;
    and [apply_nms] of the empty list is the empty list. *)
Theorem parse_yolo_output_nothing_above_threshold output0 batch
        orig_width orig_height conf_threshold iou_threshold :
  Forall (fun detection =>
            exists max_score,
              Py.np_max (Py.slice 4 (4 + num_classes) detection) =
                Ok max_score /\
              max_score < conf_threshold)
         (anchors (output0 :: batch)) ->
  parse_yolo_output coco_labels (output0 :: batch) orig_width orig_height
    conf_threshold iou_threshold = Ok [] /\
  apply_nms [] iou_threshold = [].
Proof.
  intros H. split; [| reflexivity].
  unfold parse_yolo_output.
  rewrite scan_anchors_all_None; [reflexivity |].
  revert H. apply Forall_impl. intros detection (m & Hm & Hlt).
  now apply decode_anchor_None with m.
Qed.
End DetectionClaims.

(** ** NumPy reductions *)

Lemma fold_left_max a x :
  let m := fold_left Py.max a x in
  (m = x \/ In m a) /\ x <= m /\ Forall (fun y => y <= m) a.
Proof.
  revert x. induction a as [| y a IH]; intros x; simpl.
  - repeat split; [now left | lra | constructor].
  - destruct (IH (Py.max x y)) as ([E | I] & L & F).
    + pose proof (max_lub x y) as [Lx Ly].
      repeat split; [| lra | constructor; [lra | exact F]].
      rewrite E. unfold Py.max. destruct (Py.ltb x y); auto.
    + pose proof (max_lub x y) as [Lx Ly].
      repeat split; [auto | lra | constructor; [lra | exact F]].
Qed.

Lemma fold_left_min a x :
  let m := fold_left Py.min a x in
  (m = x \/ In m a) /\ m <= x /\ Forall (fun y => m <= y) a.
Proof.
  revert x. induction a as [| y a IH]; intros x; simpl.
  - repeat split; [now left | lra | constructor].
  - destruct (IH (Py.min x y)) as ([E | I] & L & F).
    + pose proof (min_glb x y) as [Lx Ly].
      repeat split; [| lra | constructor; [lra | exact F]].
      rewrite E. unfold Py.min. destruct (Py.ltb y x); auto.
    + pose proof (min_glb x y) as [Lx Ly].
      repeat split; [auto | lra | constructor; [lra | exact F]].
Qed.

Lemma np_max_spec a m :
  Py.np_max a = Ok m -> In m a /\ Forall (fun y => y <= m) a.
Proof.
  destruct a as [| x a]; [discriminate |]. intros [= <-].
  destruct (fold_left_max a x) as ([E | I] & L & F).
  - split; [left; now rewrite E | now constructor].
  - split; [now right | now constructor].
Qed.

Lemma np_min_spec a m :
  Py.np_min a = Ok m -> In m a /\ Forall (fun y => m <= y) a.
Proof.
  destruct a as [| x a]; [discriminate |]. intros [= <-].
  destruct (fold_left_min a x) as ([E | I] & L & F).
  - split; [left; now rewrite E | now constructor].
  - split; [now right | now constructor].
Qed.

Lemma np_max_nonempty a : a <> [] -> exists m, Py.np_max a = Ok m.
Proof. destruct a; [easy | eexists; reflexivity]. Qed.

Lemma np_min_nonempty a : a <> [] -> exists m, Py.np_min a = Ok m.
Proof. destruct a; [easy | eexists; reflexivity]. Qed.

Lemma fold_left_Qplus a x : fold_left Qplus a x == x + Py.np_sum a.
Proof.
  unfold Py.np_sum. revert x. induction a as [| y a IH]; intros x; simpl.
  - ring.
  - rewrite (IH (x + y)), (IH (0 + y)). ring.
Qed.

Lemma np_sum_cons x a : Py.np_sum (x :: a) == x + Py.np_sum a.
Proof.
  unfold Py.np_sum at 1. simpl. rewrite fold_left_Qplus. ring.
Qed.

Lemma np_sum_scale t a :
  ~ t == 0 -> Py.np_sum (map (fun e => e / t) a) == Py.np_sum a / t.
Proof.
  intros Ht. induction a as [| x a IH]; simpl.
  - unfold Py.np_sum. simpl. field. exact Ht.
  - rewrite !np_sum_cons, IH. field. exact Ht.
Qed.

Lemma np_sum_pos a :
  a <> [] -> Forall (fun x => 0 < x) a -> 0 < Py.np_sum a.
Proof.
  intros Ha F. destruct F as [| x a Hx F]; [easy |]. clear Ha.
  rewrite np_sum_cons.
  assert (N : 0 <= Py.np_sum a).
  { induction F as [| y a Hy F IH]; [unfold Py.np_sum; simpl; lra |].
    rewrite np_sum_cons. lra. }
  lra.
Qed.

(** ** [np.argsort] *)

Lemma insert_index_In a i l j :
  In j (Py.insert_index a i l) <-> j = i \/ In j l.
Proof.
  induction l as [| k l IH]; simpl.
  - intuition.
  - destruct (Py.ltb (nth k a 0) (nth i a 0)); simpl; rewrite ?IH; intuition.
Qed.

Lemma np_argsort_In a j : In j (Py.np_argsort a) <-> (j < List.length a)%nat.
Proof.
  unfold Py.np_argsort.
  assert (G : forall l, In j (fold_right (Py.insert_index a) [] l) <-> In j l).
  { induction l as [| i l IH]; simpl; [reflexivity |].
    rewrite insert_index_In, IH. intuition. }
  rewrite G, in_seq. lia.
Qed.

Lemma slice_from_In {A} start (l : list A) x :
  In x (Py.slice_from start l) -> In x l.
Proof.
  unfold Py.slice_from. intros H.
  rewrite <- (firstn_skipn (Z.to_nat
    (if (start <? 0)%Z
     then Z.max 0 (start + Z.of_nat (List.length l))
     else Z.min start (Z.of_nat (List.length l)))) l).
  apply in_or_app. now right.
Qed.

(** ** [parse_efficientnet_output] *)

Section ClassificationDecoder.
Variable imagenet_labels : list string.
Variable np_exp : Q -> Q.

(** The gate stays shut exactly on the vectors that lie in [0,1]. *)
Lemma looks_like_logits_false scores :
  scores <> [] ->
  Forall (fun x => 0 <= x <= 1) scores ->
  looks_like_logits scores = Ok false.
Proof.
  intros Hne F. unfold looks_like_logits.
  destruct (np_max_nonempty scores Hne) as [mx Hmx].
  destruct (np_min_nonempty scores Hne) as [mn Hmn].
  rewrite Hmx, bind_Ok.
  apply np_max_spec in Hmx. pose proof (np_min_spec _ _ Hmn) as Smn.
  rewrite Forall_forall in F.
  pose proof (F mx (proj1 Hmx)). pose proof (F mn (proj1 Smn)).
  assert (E1 : Py.ltb 1 mx = false) by (apply ltb_false; lra).
  assert (E2 : Py.ltb mn 0 = false) by (apply ltb_false; lra).
  now rewrite E1, Hmn, bind_Ok, E2.
Qed.

Lemma looks_like_logits_true scores :
  Exists (fun x => x < 0 \/ 1 < x) scores ->
  looks_like_logits scores = Ok true.
Proof.
  intros X. apply Exists_exists in X. destruct X as (x & Hx & Out).
  assert (Hne : scores <> []) by (intros ->; easy).
  unfold looks_like_logits.
  destruct (np_max_nonempty scores Hne) as [mx Hmx].
  destruct (np_min_nonempty scores Hne) as [mn Hmn].
  rewrite Hmx, bind_Ok, Hmn, bind_Ok.
  apply np_max_spec in Hmx. apply np_min_spec in Hmn.
  destruct Hmx as [_ Fmx], Hmn as [_ Fmn].
  rewrite Forall_forall in Fmx, Fmn.
  specialize (Fmx x Hx). specialize (Fmn x Hx). cbv beta in Fmx, Fmn.
  destruct (Py.ltb 1 mx) eqn:E1; [reflexivity |].
  apply ltb_false in E1. f_equal. apply ltb_true.
  destruct Out; lra.
Qed.

(** The classifications built from a score vector. *)
Lemma parse_efficientnet_output_inv output top_k result :
  parse_efficientnet_output imagenet_labels np_exp output top_k =
    Ok result ->
  exists raw scores,
    scores_of output = Ok raw /\
    normalized_scores np_exp raw = Ok scores /\
    Forall (fun c =>
              exists idx,
                (idx < List.length scores)%nat /\
                c_label c = label_of imagenet_labels idx /\
                c_confidence c = nth idx scores 0)
           result.
Proof.
  unfold parse_efficientnet_output. intros H.
  apply bind_inv in H. destruct H as (raw & Hraw & H).
  apply bind_inv in H. destruct H as (scores & Hs & [= <-]).
  exists raw, scores. repeat split; try assumption.
  apply Forall_forall. intros c Hc. apply in_map_iff in Hc.
  destruct Hc as (idx & <- & Hidx). exists idx.
  apply in_rev, slice_from_In, np_argsort_In in Hidx. auto.
Qed.

Hypothesis np_exp_pos : forall x, 0 < np_exp x.

(** The softmax of a non-empty vector sums to 1. *)
Lemma softmax_sum scores probs :
  softmax np_exp scores = Ok probs -> Py.np_sum probs == 1.
Proof.
  unfold softmax. intros H. apply bind_inv in H.
  destruct H as (mx & Hmx & [= <-]).
  set (exp_scores := map (fun x => np_exp (x - mx)) scores).
  assert (P : 0 < Py.np_sum exp_scores).
  { apply np_sum_pos.
    - destruct scores; [discriminate | easy].
    - apply Forall_forall. intros e He. apply in_map_iff in He.
      destruct He as (x & <- & _). apply np_exp_pos. }
  rewrite np_sum_scale by lra. field. lra.
Qed.

(** C5.  [parse_efficientnet_output] ranks the vector
    [normalized_scores scores].  A non-empty score vector whose values all
    lie in [0,1] reaches that point unchanged.  A vector with a value
    below 0 or above 1 is replaced by its softmax,
    [exp(x - max) / sum(exp(x - max))], and that distribution sums to 1
    (within 1e-5). *)
Theorem normalized_scores_gate scores :
  (forall batch top_k result,
      parse_efficientnet_output imagenet_labels np_exp
        (Float32 (scores :: batch)) top_k = Ok result ->
      exists probs,
        normalized_scores np_exp scores = Ok probs /\
        Forall (fun c =>
                  exists idx,
                    (idx < List.length probs)%nat /\
                    c_confidence c = nth idx probs 0)
               result) /\
  (scores <> [] ->
   Forall (fun x => 0 <= x <= 1) scores ->
   normalized_scores np_exp scores = Ok scores) /\
  (Exists (fun x => x < 0 \/ 1 < x) scores ->
   exists mx,
     Py.np_max scores = Ok mx /\
     let exp_scores := map (fun x => np_exp (x - mx)) scores in
     let probs := map (fun e => e / Py.np_sum exp_scores) exp_scores in
     normalized_scores np_exp scores = Ok probs /\
     Qabs (Py.np_sum probs - 1) <= 1 # 100000).
Proof.
  split.
  { intros batch top_k result P.
    apply parse_efficientnet_output_inv in P.
    destruct P as (raw & probs & Hraw & Hn & R).
    cbn [scores_of] in Hraw. injection Hraw as <-.
    exists probs. split; [exact Hn |].
    revert R. apply Forall_impl. intros c (idx & Hidx & _ & Hc).
    now exists idx. }
  split.
  - intros Hne F. unfold normalized_scores.
    now rewrite looks_like_logits_false.
  - intros X. unfold normalized_scores.
    rewrite (looks_like_logits_true _ X), bind_Ok.
    assert (Hne : scores <> []).
    { intros ->. apply Exists_exists in X. now destruct X as (? & ? & _). }
    destruct (np_max_nonempty scores Hne) as [mx Hmx].
    exists mx. split; [exact Hmx |]. cbv zeta.
    assert (S : softmax np_exp scores =
                Ok (map (fun e =>
                           e / Py.np_sum
                                 (map (fun x => np_exp (x - mx)) scores))
                        (map (fun x => np_exp (x - mx)) scores))).
    { unfold softmax. now rewrite Hmx, bind_Ok. }
    split; [exact S |].
    apply softmax_sum in S.
    assert (Z : Py.np_sum
                  (map (fun e =>
                          e / Py.np_sum (map (fun x => np_exp (x - mx)) scores))
                       (map (fun x => np_exp (x - mx)) scores)) - 1 == 0)
      by lra.
    rewrite Z. discriminate.
Qed.

(** C8.  With [top_k = 3] the score vector [0.1, 0.7, 0.05, 0.15] yields
    index 1 (0.7), then index 3 (0.15), then index 0 (0.1), each with the
    label of its index. *)
Theorem parse_efficientnet_output_top3 :
  parse_efficientnet_output imagenet_labels np_exp
    (Float32 [[1 # 10; 7 # 10; 5 # 100; 15 # 100]]) 3 =
  Ok [ mkClassification (label_of imagenet_labels 1) (7 # 10);
       mkClassification (label_of imagenet_labels 3) (15 # 100);
       mkClassification (label_of imagenet_labels 0) (1 # 10) ].
Proof. reflexivity. Qed.

Lemma dequantize_range b : 0 <= dequantize b <= 1.
Proof.
  unfold dequantize.
  pose proof (Byte.to_N_bounded b) as H.
  assert (L0 : 0 <= inject_Z (Z.of_N (Byte.to_N b)))
    by (change 0 with (inject_Z 0); rewrite <- Zle_Qle; lia).
  assert (L1 : inject_Z (Z.of_N (Byte.to_N b)) <= 255)
    by (change 255 with (inject_Z 255); rewrite <- Zle_Qle; lia).
  split.
  - apply Qle_shift_div_l; [reflexivity | lra].
  - apply Qle_shift_div_r; [reflexivity | lra].
Qed.

(** C10.  On a quantized output every dequantized score lies in [0,1]; on
    a non-empty one the softmax gate stays shut and the decoder returns;
    and every classification it returns carries the raw value of its
    index divided by 255. *)
Theorem parse_efficientnet_output_quantized scores batch top_k :
  Forall (fun x => 0 <= x <= 1) (map dequantize scores) /\
  (scores <> [] ->
   looks_like_logits (map dequantize scores) = Ok false /\
   exists result,
     parse_efficientnet_output imagenet_labels np_exp
       (UInt8 (scores :: batch)) top_k = Ok result) /\
  (forall result,
      parse_efficientnet_output imagenet_labels np_exp
        (UInt8 (scores :: batch)) top_k = Ok result ->
      Forall (fun c =>
                exists idx raw,
                  nth_error scores idx = Some raw /\
                  c_label c = label_of imagenet_labels idx /\
                  c_confidence c = inject_Z (Z.of_N (Byte.to_N raw)) / 255)
             result).
Proof.
  assert (F : Forall (fun x => 0 <= x <= 1) (map dequantize scores)).
  { apply Forall_forall. intros x Hx. apply in_map_iff in Hx.
    destruct Hx as (b & <- & _). apply dequantize_range. }
  assert (G : scores <> [] ->
              looks_like_logits (map dequantize scores) = Ok false).
  { intros Hne. apply looks_like_logits_false; [| exact F].
    destruct scores; [easy | discriminate]. }
  split; [exact F |]. split.
  - intros Hne. split; [exact (G Hne) |].
    unfold parse_efficientnet_output. cbn [scores_of].
    rewrite bind_Ok. unfold normalized_scores.
    rewrite (G Hne), !bind_Ok. eexists. reflexivity.
  - intros result P.
    assert (Hne : scores <> []) by (intros ->; discriminate P).
    apply parse_efficientnet_output_inv in P.
    destruct P as (raw & probs & Hraw & Hn & R).
    cbn [scores_of] in Hraw. injection Hraw as <-.
    unfold normalized_scores in Hn. rewrite (G Hne), bind_Ok in Hn.
    injection Hn as <-.
    revert R. apply Forall_impl. intros c (idx & Hidx & Hl & Hc).
    rewrite length_map in Hidx.
    destruct (nth_error scores idx) as [b |] eqn:N;
      [| apply nth_error_None in N; lia].
    exists idx, b. split; [exact N |]. split; [exact Hl |].
    rewrite Hc.
    rewrite (nth_indep _ 0 (dequantize b))
      by (rewrite length_map; exact Hidx).
    rewrite map_nth. apply nth_error_nth with (d := b) in N.
    now rewrite N.
Qed.
End ClassificationDecoder.

(** * The properties on the sample inputs *)

Lemma exp2_pos x : 0 < Examples.exp2 x.
Proof. apply Qpower_0_lt. reflexivity. Qed.

Lemma parse_yolo_output_top10_witness :
  parse_yolo_output Examples.coco Examples.three_anchors 1920 1080
    (1 # 4) (45 # 100) = Ok Examples.three_anchors_detections /\
  ((List.length Examples.three_anchors_detections <= 10)%nat /\
   Forall (fun d => 1 # 4 <= confidence d) Examples.three_anchors_detections /\
   descending Examples.three_anchors_detections).
Proof.
  assert (H : parse_yolo_output Examples.coco Examples.three_anchors 1920 1080
                (1 # 4) (45 # 100) = Ok Examples.three_anchors_detections)
    by reflexivity.
  split; [exact H |].
  exact (parse_yolo_output_top10 Examples.coco Examples.three_anchors
           1920 1080 (1 # 4) (45 # 100) _ H).
Defined.

Lemma apply_nms_no_pair_at_threshold_witness :
  apply_nms [Examples.a; Examples.b; Examples.c] (45 # 100) =
    [Examples.b; Examples.c] /\
  ~ 45 # 100 <= compute_iou (bbox Examples.b) (bbox Examples.c).
Proof.
  split; [reflexivity |].
  apply (apply_nms_no_pair_at_threshold
           [Examples.a; Examples.b; Examples.c] (45 # 100) 0 1);
    [discriminate | reflexivity | reflexivity].
Defined.

Lemma compute_iou_spec_witness :
  compute_iou (bbox Examples.a) (bbox Examples.b) <= 1 /\
  compute_iou (mkBox 0 0 0 1) (mkBox 0 0 0 1) = 0 /\
  compute_iou (bbox Examples.a) (bbox Examples.a) == 1 /\
  compute_iou (bbox Examples.a) (bbox Examples.c) == 0.
Proof.
  destruct compute_iou_spec as (R & U & S & N).
  split; [apply R |].
  split; [apply U; discriminate |].
  split; [apply S; [discriminate | discriminate | reflexivity] |].
  apply N. left. discriminate.
Defined.

Lemma normalized_scores_gate_witness :
  normalized_scores Examples.exp2 Examples.probabilities =
    Ok Examples.probabilities /\
  exists mx,
    Py.np_max Examples.logits = Ok mx /\
    let exp_scores := map (fun x => Examples.exp2 (x - mx)) Examples.logits in
    let probs := map (fun e => e / Py.np_sum exp_scores) exp_scores in
    normalized_scores Examples.exp2 Examples.logits = Ok probs /\
    Qabs (Py.np_sum probs - 1) <= 1 # 100000.
Proof.
  split.
  - apply (normalized_scores_gate Examples.coco Examples.exp2 exp2_pos
             Examples.probabilities); [discriminate |].
    repeat constructor; discriminate.
  - apply (normalized_scores_gate Examples.coco Examples.exp2 exp2_pos
             Examples.logits).
    apply Exists_cons_hd. right. reflexivity.
Defined.

Lemma parse_yolo_output_ignores_image_size_witness :
  parse_yolo_output Examples.coco Examples.three_anchors 1920 1080
    (1 # 4) (45 # 100) =
  parse_yolo_output Examples.coco Examples.three_anchors 640 640
    (1 # 4) (45 # 100) /\
  exists cx cy w h rest,
    In (cx :: cy :: w :: h :: rest) (anchors Examples.three_anchors) /\
    mkBox (740 # 1280) (740 # 1280) (860 # 1280) (860 # 1280) =
    mkBox (Py.max 0 ((cx - w / 2) / 640)) (Py.max 0 ((cy - h / 2) / 640))
          (Py.min 1 ((cx + w / 2) / 640)) (Py.min 1 ((cy + h / 2) / 640)).
Proof.
  destruct (parse_yolo_output_ignores_image_size Examples.coco
              Examples.three_anchors (1 # 4) (45 # 100)) as [I B].
  split; [apply I |].
  apply (B 1920%Z 1080%Z Examples.three_anchors_detections
           (mkDetection "car" (6 # 10)
              (mkBox (740 # 1280) (740 # 1280) (860 # 1280) (860 # 1280))));
    [reflexivity | right; left; reflexivity].
Defined.

Lemma parse_yolo_output_nothing_above_threshold_witness :
  parse_yolo_output Examples.coco Examples.faint_anchor 1920 1080
    (1 # 4) (45 # 100) = Ok [] /\
  apply_nms [] (45 # 100) = [].
Proof.
  apply (parse_yolo_output_nothing_above_threshold Examples.coco
           (hd [] Examples.faint_anchor) [] 1920 1080 (1 # 4) (45 # 100)).
  repeat constructor. exists (1 # 10). split; reflexivity.
Defined.

Lemma parse_efficientnet_output_quantized_witness :
  looks_like_logits (map dequantize Examples.quantized) = Ok false /\
  exists result,
    parse_efficientnet_output Examples.coco Examples.exp2
      (UInt8 [Examples.quantized]) 3 = Ok result /\
    Forall (fun c =>
              exists idx raw,
                nth_error Examples.quantized idx = Some raw /\
                c_label c = label_of Examples.coco idx /\
                c_confidence c = inject_Z (Z.of_N (Byte.to_N raw)) / 255)
           result.
Proof.
  destruct (parse_efficientnet_output_quantized Examples.coco Examples.exp2
              Examples.quantized [] 3) as (_ & G & R).
  destruct G as [G [result P]]; [discriminate |].
  split; [exact G |].
  exists result. split; [exact P | exact (R result P)].
Defined.

(** * Further properties of the pipeline *)

(** ** Geometry *)

(** X1.  [compute_iou] is symmetric in its two boxes. *)
Theorem compute_iou_symmetric a b : compute_iou a b == compute_iou b a.
Proof.
  unfold compute_iou.
  pose proof (union_area_comm a b) as U.
  pose proof (inter_area_comm a b) as I.
  py_cases; try lra.
  now rewrite U, I.
Qed.

Lemma compute_iou_non_overlapping a b :
  non_overlapping a b -> compute_iou a b == 0.
Proof.
  intros H. unfold compute_iou.
  pose proof (inter_area_non_overlapping a b H) as I.
  py_cases; [| reflexivity].
  rewrite I. field. lra.
Qed.

Lemma inter_area_overlapping a b :
  bx1 a < bx2 a -> by1 a < by2 a -> bx1 b < bx2 b -> by1 b < by2 b ->
  ~ non_overlapping a b -> 0 < inter_area a b.
Proof.
  intros Ax Ay Bx By' N. unfold non_overlapping in N.
  assert (H1 : bx1 b < bx2 a) by (apply Qnot_le_lt; tauto).
  assert (H2 : bx1 a < bx2 b) by (apply Qnot_le_lt; tauto).
  assert (H3 : by1 b < by2 a) by (apply Qnot_le_lt; tauto).
  assert (H4 : by1 a < by2 b) by (apply Qnot_le_lt; tauto).
  unfold inter_area. cbv zeta.
  assert (Dx : 0 < Py.min (bx2 a) (bx2 b) - Py.max (bx1 a) (bx1 b))
    by (unfold Py.max, Py.min; py_cases; lra).
  assert (Dy : 0 < Py.min (by2 a) (by2 b) - Py.max (by1 a) (by1 b))
    by (unfold Py.max, Py.min; py_cases; lra).
  apply Qmult_lt_0_compat;
    (unfold Py.max at 1; py_cases; [assumption | lra]).
Qed.

(** X2.  For two boxes of positive width and height the IOU is positive
    exactly when the boxes overlap, and 0 exactly when one lies left of,
    right of, above or below the other. *)
Theorem compute_iou_positive_iff a b :
  bx1 a < bx2 a -> by1 a < by2 a -> bx1 b < bx2 b -> by1 b < by2 b ->
  (0 < compute_iou a b <-> ~ non_overlapping a b) /\
  (compute_iou a b == 0 <-> non_overlapping a b).
Proof.
  intros Ax Ay Bx By'.
  assert (Pos : ~ non_overlapping a b -> 0 < compute_iou a b).
  { intros N. pose proof (inter_area_overlapping a b Ax Ay Bx By' N) as I.
    pose proof (inter_area_le_l a b I) as L.
    assert (Ab : 0 < box_area b) by (unfold box_area; nra).
    assert (U : 0 < union_area a b) by (unfold union_area; lra).
    unfold compute_iou. py_cases; [| lra].
    apply Qlt_shift_div_l; lra. }
  split; split.
  - intros P N. apply compute_iou_non_overlapping in N. lra.
  - exact Pos.
  - intros Z.
    assert (D : non_overlapping a b \/ ~ non_overlapping a b).
    { unfold non_overlapping.
      destruct (Qlt_le_dec (bx1 b) (bx2 a)); [| tauto].
      destruct (Qlt_le_dec (bx1 a) (bx2 b)); [| tauto].
      destruct (Qlt_le_dec (by1 b) (by2 a)); [| tauto].
      destruct (Qlt_le_dec (by1 a) (by2 b)); [| tauto].
      right. intros [H | [H | [H | H]]]; lra. }
    destruct D as [D | D]; [exact D | apply Pos in D; lra].
  - apply compute_iou_non_overlapping.
Qed.

(** ** The suppressor *)

Lemma insert_reverse_Permutation {A} (key : A -> Q) x l :
  Permutation (x :: l) (Py.insert_reverse key x l).
Proof.
  induction l as [| y l IH]; simpl; [reflexivity |].
  destruct (Py.ltb (key x) (key y)); [| reflexivity].
  rewrite perm_swap. now apply perm_skip.
Qed.

Lemma sorted_reverse_Permutation {A} (key : A -> Q) l :
  Permutation l (Py.sorted_reverse key l).
Proof.
  induction l as [| x l IH]; simpl; [reflexivity |].
  rewrite <- insert_reverse_Permutation. now apply perm_skip.
Qed.

Lemma filter_split_Permutation {A} (p : A -> bool) l :
  Permutation (filter p l ++ filter (fun x => negb (p x)) l) l.
Proof.
  induction l as [| x l IH]; simpl; [reflexivity |].
  destruct (p x); simpl.
  - now apply perm_skip.
  - rewrite <- Permutation_middle. now apply perm_skip.
Qed.

Lemma ForallOrdPairs_all {A} (R : A -> A -> Prop) l :
  (forall a b, R a b) -> ForallOrdPairs R l.
Proof.
  intros H. induction l; constructor; [apply Forall_forall; auto | assumption].
Qed.

Lemma sorted_head_max l best rest :
  Py.sorted_reverse confidence l = best :: rest ->
  In best l /\ Forall (fun d => confidence d <= confidence best) l.
Proof.
  intros E.
  pose proof (sorted_reverse_sorted confidence l) as S.
  rewrite E in S. apply StronglySorted_inv in S. destruct S as [_ F].
  split.
  - apply (sorted_reverse_In confidence). rewrite E. now left.
  - apply Forall_forall. intros d Hd.
    apply (sorted_reverse_In confidence) in Hd. rewrite E in Hd.
    destruct Hd as [<- | Hd]; [lra |].
    rewrite Forall_forall in F. apply F, Hd.
Qed.

(** X3.  The detections kept by [apply_nms] come out in order of
    non-increasing confidence. *)
Theorem apply_nms_descending detections iou_threshold :
  descending (apply_nms detections iou_threshold).
Proof.
  rewrite apply_nms_loop. apply nms_loop_sorted, sorted_reverse_sorted.
Qed.

(** X4.  [apply_nms] only drops detections: its result, together with
    the detections it dropped, is a rearrangement of its input.  Nothing is
    invented and nothing is kept twice. *)
Theorem apply_nms_only_drops detections iou_threshold :
  exists dropped,
    Permutation (apply_nms detections iou_threshold ++ dropped) detections.
Proof.
  rewrite apply_nms_loop.
  assert (H : forall l, exists dropped,
               Permutation (nms_loop iou_threshold [] l ++ dropped) l).
  { intros l. pattern l, (nms_loop iou_threshold [] l).
    apply nms_loop_rounds; [now exists [] |].
    intros best rest rest' [dropped IH].
    exists (dropped ++
            filter (fun d =>
                      negb (Py.ltb (compute_iou (bbox best) (bbox d))
                                   iou_threshold)) rest).
    simpl. apply perm_skip. rewrite app_assoc, IH.
    apply filter_split_Permutation. }
  destruct (H (Py.sorted_reverse confidence detections)) as [dropped P].
  exists dropped. rewrite P. symmetry. apply sorted_reverse_Permutation.
Qed.

(** X5.  A detection is dropped by [apply_nms] only for a reason: every
    input detection is either kept, or a kept detection of at least its
    confidence overlaps it with an IOU that reaches the threshold. *)
Theorem apply_nms_dropped_is_suppressed detections iou_threshold d :
  In d detections ->
  In d (apply_nms detections iou_threshold) \/
  exists k,
    In k (apply_nms detections iou_threshold) /\
    confidence d <= confidence k /\
    iou_threshold <= compute_iou (bbox k) (bbox d).
Proof.
  intros Hd. apply (sorted_reverse_In confidence) in Hd.
  rewrite apply_nms_loop.
  pose proof (sorted_reverse_sorted confidence detections) as S.
  revert S d Hd.
  pattern (Py.sorted_reverse confidence detections),
    (nms_loop iou_threshold [] (Py.sorted_reverse confidence detections)).
  apply nms_loop_rounds; [easy |].
  intros best rest rest' IH S d [<- | Hd]; [left; now left |].
  apply StronglySorted_inv in S. destruct S as [S F].
  destruct (Py.ltb (compute_iou (bbox best) (bbox d)) iou_threshold) eqn:E.
  - assert (Hd' : In d rest') by (apply filter_In; auto).
    destruct (IH (sorted_filter confidence _ rest S) d Hd')
      as [K | (k & K & C & I)].
    + left. now right.
    + right. exists k. split; [now right | auto].
  - right. exists best. split; [now left |]. split.
    + rewrite Forall_forall in F. apply F, Hd.
    + now apply ltb_false in E.
Qed.

(** X6.  On a non-empty list [apply_nms] always keeps, at the head of its
    result, a detection of the highest confidence. *)
Theorem apply_nms_keeps_best detections iou_threshold :
  detections <> [] ->
  exists best rest,
    apply_nms detections iou_threshold = best :: rest /\
    In best detections /\
    Forall (fun d => confidence d <= confidence best) detections.
Proof.
  intros Hne. rewrite apply_nms_loop.
  destruct (Py.sorted_reverse confidence detections) as [| best rest] eqn:E.
  - exfalso. apply Hne, Permutation_nil. symmetry. rewrite <- E.
    apply sorted_reverse_Permutation.
  - rewrite nms_loop_cons. eexists best, _. split; [reflexivity |].
    now apply sorted_head_max with rest.
Qed.

(** X7.  With a threshold above 1 nothing is suppressed: [apply_nms]
    returns all its input, sorted stably by descending confidence. *)
Theorem apply_nms_threshold_above_1 detections iou_threshold :
  1 < iou_threshold ->
  apply_nms detections iou_threshold =
    Py.sorted_reverse confidence detections /\
  Permutation detections (apply_nms detections iou_threshold).
Proof.
  intros Ht.
  assert (E : apply_nms detections iou_threshold =
              Py.sorted_reverse confidence detections).
  { rewrite apply_nms_loop. apply nms_loop_fixed, ForallOrdPairs_all.
    intros a b. pose proof (compute_iou_range (bbox a) (bbox b)). lra. }
  split; [exact E |]. rewrite E. apply sorted_reverse_Permutation.
Qed.

(** X8.  With a threshold of 0 or below everything but the best
    detection is suppressed: on a non-empty list [apply_nms] returns one
    detection, of the highest confidence. *)
Theorem apply_nms_threshold_nonpositive detections iou_threshold :
  iou_threshold <= 0 ->
  detections <> [] ->
  exists best,
    apply_nms detections iou_threshold = [best] /\
    In best detections /\
    Forall (fun d => confidence d <= confidence best) detections.
Proof.
  intros Ht Hne. rewrite apply_nms_loop.
  destruct (Py.sorted_reverse confidence detections) as [| best rest] eqn:E.
  - exfalso. apply Hne, Permutation_nil. symmetry. rewrite <- E.
    apply sorted_reverse_Permutation.
  - exists best. split; [| now apply sorted_head_max with rest].
    rewrite nms_loop_cons. f_equal.
    replace (filter _ rest) with (@nil Detection); [now simp nms_loop |].
    symmetry. induction rest as [| d rest' IH] in |- *; [reflexivity |].
    simpl.
    assert (F : Py.ltb (compute_iou (bbox best) (bbox d)) iou_threshold
                = false).
    { apply ltb_false.
      pose proof (compute_iou_range (bbox best) (bbox d)). lra. }
    rewrite F. exact IH.
Qed.

(** X9.  Of two detections whose IOU reaches the threshold only the more
    confident one survives, whatever their order in the input; on equal
    confidence the one that comes first survives. *)
Theorem apply_nms_overlapping_pair a b iou_threshold :
  iou_threshold <= compute_iou (bbox a) (bbox b) ->
  confidence b <= confidence a ->
  apply_nms [a; b] iou_threshold = [a] /\
  (confidence b < confidence a -> apply_nms [b; a] iou_threshold = [a]).
Proof.
  intros I C.
  assert (F : Py.ltb (compute_iou (bbox a) (bbox b)) iou_threshold = false)
    by now apply ltb_false.
  split.
  - unfold apply_nms, Py.sorted_reverse. simpl.
    apply ltb_false in C. rewrite C.
    rewrite nms_loop_cons. simpl. rewrite F. now simp nms_loop.
  - intros C'. unfold apply_nms, Py.sorted_reverse. simpl.
    apply ltb_true in C'. rewrite C'.
    rewrite nms_loop_cons. simpl. rewrite F. now simp nms_loop.
Qed.

(** ** [np.argmax] *)

Lemma argmax_from_spec a :
  forall pre best_i best,
    nth_error pre best_i = Some best ->
    (forall k s, (k < best_i)%nat -> nth_error pre k = Some s -> s < best) ->
    Forall (fun s => s <= best) pre ->
    let j := Py.argmax_from best_i best (List.length pre) a in
    let m := fold_left Py.max a best in
    nth_error (pre ++ a) j = Some m /\
    (forall k s, (k < j)%nat -> nth_error (pre ++ a) k = Some s -> s < m).
Proof.
  induction a as [| x a IH]; intros pre best_i best Hb Hfirst Hall; simpl.
  - rewrite app_nil_r. auto.
  - assert (Hlen : (best_i < List.length pre)%nat)
      by (apply nth_error_Some; congruence).
    replace (pre ++ x :: a) with ((pre ++ [x]) ++ a)
      by (rewrite <- app_assoc; reflexivity).
    replace (S (List.length pre)) with (List.length (pre ++ [x]))
      by (rewrite length_app; simpl; lia).
    change (Py.max best x) with (if Py.ltb best x then x else best).
    destruct (Py.ltb best x) eqn:E.
    + apply ltb_true in E. apply IH.
      * rewrite nth_error_app2, Nat.sub_diag by lia. reflexivity.
      * intros k s Hk Hs. rewrite nth_error_app1 in Hs by lia.
        apply nth_error_In in Hs. rewrite Forall_forall in Hall.
        specialize (Hall s Hs). cbv beta in Hall. lra.
      * apply Forall_app. split; [| constructor; [lra | constructor]].
        revert Hall. apply Forall_impl. intros s Hs. lra.
    + apply ltb_false in E. apply IH.
      * rewrite nth_error_app1 by lia. exact Hb.
      * intros k s Hk Hs. rewrite nth_error_app1 in Hs by lia.
        now apply (Hfirst k).
      * apply Forall_app. split; [exact Hall | now repeat constructor].
Qed.

Lemma np_argmax_spec a m :
  Py.np_max a = Ok m ->
  exists j,
    Py.np_argmax a = Ok j /\
    nth_error a j = Some m /\
    (forall k s, (k < j)%nat -> nth_error a k = Some s -> s < m).
Proof.
  destruct a as [| x a]; [discriminate |]. intros [= <-].
  exists (Py.argmax_from 0 x 1 a). split; [reflexivity |].
  apply (argmax_from_spec a [x] 0%nat x); [reflexivity | lia |].
  repeat constructor. lra.
Qed.

(** ** The detection decoder *)


Section DetectionDecoderFacts.
Variable coco_labels : list string.
Variable conf_threshold : Q.





End DetectionDecoderFacts.

Section DetectionDecoderResults.
Variable coco_labels : list string.

(** The score and the label that a round of the loop gives its
    detection. *)
Lemma decode_anchor_best_class conf_threshold detection d :
  decode_anchor coco_labels conf_threshold detection = Ok (Some d) ->
  exists class_id,
    (class_id < num_classes)%nat /\
    label d = label_of coco_labels class_id /\
    nth_error (Py.slice 4 (4 + num_classes) detection) class_id =
      Some (confidence d) /\
    Forall (fun s => s <= confidence d)
           (Py.slice 4 (4 + num_classes) detection) /\
    (forall k s,
        (k < class_id)%nat ->
        nth_error (Py.slice 4 (4 + num_classes) detection) k = Some s ->
        s < confidence d).
Proof.
  unfold decode_anchor.
  destruct (Py.slice 0 4 detection) as [| cx [| cy [| w [| h [| ? ?]]]]];
    try discriminate.
  set (class_scores := Py.slice 4 (4 + num_classes) detection).
  cbv zeta.
  destruct (Py.np_max class_scores) as [e | max_score] eqn:M;
    [discriminate |].
  destruct (np_argmax_spec _ _ M) as (j & -> & Hj & Hfirst).
  rewrite !bind_Ok.
  destruct (Py.geb max_score conf_threshold); [| discriminate].
  intros [= <-]. cbn [label confidence]. exists j.
  split; [| split; [reflexivity | split; [exact Hj | split]]].
  - assert (L : (j < List.length class_scores)%nat)
      by (apply nth_error_Some; congruence).
    pose proof (firstn_le_length (4 + num_classes - 4)
                  (skipn 4 detection)) as B.
    unfold class_scores, Py.slice in L. simpl in B, L |- *.
    unfold num_classes. lia.
  - now apply np_max_spec in M.
  - exact Hfirst.
Qed.

(** Every detection returned was appended for one of the anchors. *)
Lemma parse_yolo_output_from_anchor output orig_width orig_height
      conf_threshold iou_threshold result d :
  parse_yolo_output coco_labels output orig_width orig_height
    conf_threshold iou_threshold = Ok result ->
  In d result ->
  exists detection,
    In detection (anchors output) /\
    decode_anchor coco_labels conf_threshold detection = Ok (Some d).
Proof.
  intros H Hd. apply parse_yolo_output_inv in H.
  destruct H as (detections & S & ->).
  apply firstn_In, apply_nms_In in Hd. revert d Hd. apply Forall_forall.
  eapply scan_anchors_Forall; [| constructor | exact S].
  intros detection d Hin D. now exists detection.
Qed.

Lemma corner_box_in_unit_square cx cy w h rest :
  touches_frame (cx :: cy :: w :: h :: rest) ->
  in_unit_square (corner_box cx cy w h).
Proof.
  intros [(Hw & Hx1 & Hx2) (Hh & Hy1 & Hy2)].
  unfold in_unit_square, corner_box, Py.max, Py.min. cbn [bx1 by1 bx2 by2].
  assert (X1 : (cx - w / 2) / 640 <= 1)
    by (apply Qle_shift_div_r; [reflexivity | lra]).
  assert (X2 : 0 <= (cx + w / 2) / 640)
    by (apply Qle_shift_div_l; [reflexivity | lra]).
  assert (W : 0 <= w / 2)
    by (apply Qle_shift_div_l; [reflexivity | lra]).
  assert (H' : 0 <= h / 2)
    by (apply Qle_shift_div_l; [reflexivity | lra]).
  assert (X3 : (cx - w / 2) / 640 <= (cx + w / 2) / 640)
    by (apply Qmult_le_compat_r; [lra | discriminate]).
  assert (Y1 : (cy - h / 2) / 640 <= 1)
    by (apply Qle_shift_div_r; [reflexivity | lra]).
  assert (Y2 : 0 <= (cy + h / 2) / 640)
    by (apply Qle_shift_div_l; [reflexivity | lra]).
  assert (Y3 : (cy - h / 2) / 640 <= (cy + h / 2) / 640)
    by (apply Qmult_le_compat_r; [lra | discriminate]).
  split; py_cases; lra.
Qed.

(** X11.  What the clamp of [parse_yolo_output] guarantees.  Every
    returned box has [x1 >= 0], [y1 >= 0], [x2 <= 1] and [y2 <= 1].  When
    in addition every anchor of the tensor has a non-negative width and
    height and reaches into the 640 by 640 frame, every returned box
    satisfies [0 <= x1 <= x2 <= 1] and [0 <= y1 <= y2 <= 1]. *)
Theorem parse_yolo_output_clamp output orig_width orig_height
        conf_threshold iou_threshold result :
  parse_yolo_output coco_labels output orig_width orig_height
    conf_threshold iou_threshold = Ok result ->
  Forall (fun d =>
            0 <= bx1 (bbox d) /\ 0 <= by1 (bbox d) /\
            bx2 (bbox d) <= 1 /\ by2 (bbox d) <= 1) result /\
  (Forall touches_frame (anchors output) ->
   Forall (fun d => in_unit_square (bbox d)) result).
Proof.
  intros H. split; [| intros T]; apply Forall_forall; intros d Hd;
    destruct (parse_yolo_output_from_anchor _ _ _ _ _ _ _ H Hd)
      as (detection & Hin & D);
    apply decode_anchor_Some in D;
    destruct D as (cx & cy & w & h & rest & -> & _ & ->).
  - apply (corner_box_bounds cx cy w h).
  - rewrite Forall_forall in T.
    exact (corner_box_in_unit_square cx cy w h rest (T _ Hin)).
Qed.

(** X12.  Every detection returned by [parse_yolo_output] belongs to an
    anchor of the tensor: its confidence is the largest of the anchor's
    class scores, and its label is the label of the first class that
    reaches that score, a class index below 80. *)
Theorem parse_yolo_output_best_class output orig_width orig_height
        conf_threshold iou_threshold result d :
  parse_yolo_output coco_labels output orig_width orig_height
    conf_threshold iou_threshold = Ok result ->
  In d result ->
  exists detection class_id,
    In detection (anchors output) /\
    (class_id < 80)%nat /\
    label d = label_of coco_labels class_id /\
    nth_error (Py.slice 4 84 detection) class_id = Some (confidence d) /\
    Forall (fun s => s <= confidence d) (Py.slice 4 84 detection) /\
    (forall k s,
        (k < class_id)%nat ->
        nth_error (Py.slice 4 84 detection) k = Some s ->
        s < confidence d).
Proof.
  intros H Hd.
  destruct (parse_yolo_output_from_anchor _ _ _ _ _ _ _ H Hd)
    as (detection & Hin & D).
  apply decode_anchor_best_class in D. destruct D as (class_id & D).
  now exists detection, class_id.
Qed.

(** X13.  No two detections returned by [parse_yolo_output], taken at two
    different positions of its result, have an IOU that reaches
    [iou_threshold]: the truncation to ten keeps what [apply_nms]
    established. *)
Theorem parse_yolo_output_no_pair_at_threshold output orig_width
        orig_height conf_threshold iou_threshold result i j a b :
  parse_yolo_output coco_labels output orig_width orig_height
    conf_threshold iou_threshold = Ok result ->
  i <> j ->
  nth_error result i = Some a ->
  nth_error result j = Some b ->
  ~ iou_threshold <= compute_iou (bbox a) (bbox b).
Proof.
  intros H Hij Ha Hb. apply parse_yolo_output_inv in H.
  destruct H as (detections & _ & ->).
  rewrite nth_error_firstn in Ha, Hb.
  destruct (i <? 10)%nat; [| discriminate].
  destruct (j <? 10)%nat; [| discriminate].
  rewrite apply_nms_loop in Ha, Hb.
  pose proof (nms_loop_pairs iou_threshold
                (Py.sorted_reverse confidence detections)) as P.
  apply Qlt_not_le.
  destruct (Nat.lt_total i j) as [L | [E | L]]; [| contradiction |].
  - exact (ForallOrdPairs_nth_error _ _ P i j a b L Ha Hb).
  - rewrite compute_iou_comm.
    exact (ForallOrdPairs_nth_error _ _ P j i b a L Hb Ha).
Qed.
End DetectionDecoderResults.

(** ** What the detection decoder reads of its tensor *)

Lemma transpose_firstn n a :
  Py.transpose (firstn (S n) a) = map (firstn (S n)) (Py.transpose a).
Proof.
  unfold Py.transpose. destruct a as [| r a]; [reflexivity |].
  rewrite map_map. cbn [firstn]. apply map_ext. intros j.
  cbn [map]. now rewrite firstn_map.
Qed.

Lemma decode_anchor_first_84 coco_labels conf_threshold detection :
  decode_anchor coco_labels conf_threshold (firstn 84 detection) =
  decode_anchor coco_labels conf_threshold detection.
Proof.
  unfold decode_anchor.
  assert (B : Py.slice 0 4 (firstn 84 detection) = Py.slice 0 4 detection).
  { unfold Py.slice. cbn [skipn]. now rewrite firstn_firstn. }
  assert (C : Py.slice 4 (4 + num_classes) (firstn 84 detection) =
              Py.slice 4 (4 + num_classes) detection).
  { unfold Py.slice. rewrite skipn_firstn_comm, firstn_firstn.
    reflexivity. }
  now rewrite B, C.
Qed.

(** X14.  [parse_yolo_output] reads the first tensor of the batch only, and
    of that tensor the first 84 rows only: further batch entries and
    further rows do not change its result. *)
Theorem parse_yolo_output_reads_84_rows coco_labels output0 batch batch'
        orig_width orig_height conf_threshold iou_threshold :
  parse_yolo_output coco_labels (firstn 84 output0 :: batch)
    orig_width orig_height conf_threshold iou_threshold =
  parse_yolo_output coco_labels (output0 :: batch')
    orig_width orig_height conf_threshold iou_threshold.
Proof.
  unfold parse_yolo_output. rewrite transpose_firstn.
  assert (S : forall rows detections,
             scan_anchors coco_labels conf_threshold
               (map (firstn 84) rows) detections =
             scan_anchors coco_labels conf_threshold rows detections).
  { induction rows as [| row rows IH]; intros detections;
      cbn [map scan_anchors]; [reflexivity |].
    rewrite decode_anchor_first_84.
    destruct (decode_anchor coco_labels conf_threshold row) as [e | d];
      [reflexivity |].
    cbn [bind]. apply IH. }
  now rewrite S.
Qed.

(** ** [np.argsort], once more *)

Lemma insert_index_Permutation a i l :
  Permutation (i :: l) (Py.insert_index a i l).
Proof.
  induction l as [| j l IH]; simpl; [reflexivity |].
  destruct (Py.ltb (nth j a 0) (nth i a 0)); [| reflexivity].
  rewrite perm_swap. now apply perm_skip.
Qed.

Lemma np_argsort_Permutation a :
  Permutation (seq 0 (List.length a)) (Py.np_argsort a).
Proof.
  unfold Py.np_argsort.
  induction (seq 0 (List.length a)) as [| i l IH]; simpl; [reflexivity |].
  rewrite <- insert_index_Permutation. now apply perm_skip.
Qed.

Lemma np_argsort_length a : List.length (Py.np_argsort a) = List.length a.
Proof.
  rewrite <- (Permutation_length (np_argsort_Permutation a)).
  apply length_seq.
Qed.

Lemma np_argsort_NoDup a : NoDup (Py.np_argsort a).
Proof.
  apply (Permutation_NoDup (np_argsort_Permutation a)), seq_NoDup.
Qed.

Lemma insert_index_sorted a i l :
  StronglySorted (fun j k => nth j a 0 <= nth k a 0) l ->
  StronglySorted (fun j k => nth j a 0 <= nth k a 0) (Py.insert_index a i l).
Proof.
  induction 1 as [| j l S IH F]; simpl.
  - repeat constructor.
  - destruct (Py.ltb (nth j a 0) (nth i a 0)) eqn:E.
    + apply ltb_true in E. constructor; [exact IH |].
      apply Forall_forall. intros k Hk.
      apply insert_index_In in Hk. destruct Hk as [-> | Hk]; [lra |].
      rewrite Forall_forall in F. auto.
    + apply ltb_false in E. constructor; [constructor; assumption |].
      constructor; [exact E |].
      apply Forall_forall. intros k Hk.
      rewrite Forall_forall in F. specialize (F k Hk). cbv beta in F. lra.
Qed.

Lemma np_argsort_sorted a :
  StronglySorted (fun j k => nth j a 0 <= nth k a 0) (Py.np_argsort a).
Proof.
  unfold Py.np_argsort.
  induction (seq 0 (List.length a)); simpl;
    [constructor | now apply insert_index_sorted].
Qed.

Lemma StronglySorted_app_inv {A} (R : A -> A -> Prop) l1 l2 :
  StronglySorted R (l1 ++ l2) ->
  StronglySorted R l1 /\ StronglySorted R l2 /\
  (forall x y, In x l1 -> In y l2 -> R x y).
Proof.
  induction l1 as [| z l1 IH]; simpl; intros S.
  - repeat split; [constructor | exact S | easy].
  - apply StronglySorted_inv in S. destruct S as [S F].
    destruct (IH S) as (S1 & S2 & C). rewrite Forall_forall in F.
    repeat split; [| exact S2 |].
    + constructor; [exact S1 |]. apply Forall_forall. intros y Hy.
      apply F, in_or_app. now left.
    + intros x y [<- | Hx] Hy; [apply F, in_or_app; now right | auto].
Qed.

Lemma StronglySorted_rev {A} (R : A -> A -> Prop) l :
  StronglySorted R l -> StronglySorted (fun x y => R y x) (List.rev l).
Proof.
  induction 1 as [| x l S IH F]; simpl; [constructor |].
  assert (G : forall l1 : list A,
             StronglySorted (fun x y => R y x) l1 ->
             Forall (fun y => R x y) l1 ->
             StronglySorted (fun x y => R y x) (l1 ++ [x])).
  { induction 1 as [| z l1 S1 IH1 F1]; simpl; intros Fx.
    - repeat constructor.
    - inversion Fx; subst. constructor; [auto |].
      apply Forall_app. split; [exact F1 | now repeat constructor]. }
  apply G; [exact IH |].
  apply Forall_forall. intros y Hy. apply in_rev in Hy.
  rewrite Forall_forall in F. auto.
Qed.

Lemma StronglySorted_map {A B} (f : A -> B) (R : B -> B -> Prop) l :
  StronglySorted (fun x y => R (f x) (f y)) l -> StronglySorted R (map f l).
Proof.
  induction 1 as [| x l S IH F]; simpl; constructor; [exact IH |].
  apply Forall_forall. intros y Hy. apply in_map_iff in Hy.
  destruct Hy as (z & <- & Hz). rewrite Forall_forall in F. auto.
Qed.

(** The cut [l[start:]] splits [l] in two. *)
Lemma slice_from_split {A} start (l : list A) :
  exists cut, l = cut ++ Py.slice_from start l.
Proof.
  unfold Py.slice_from. eexists. symmetry. apply firstn_skipn.
Qed.

Lemma slice_from_length {A} start (l : list A) :
  Z.of_nat (List.length (Py.slice_from start l)) =
  (if start <? 0
   then Z.min (- start) (Z.of_nat (List.length l))
   else Z.of_nat (List.length l) - Z.min start (Z.of_nat (List.length l)))%Z.
Proof.
  unfold Py.slice_from. rewrite length_skipn.
  destruct (start <? 0)%Z eqn:E; [apply Z.ltb_lt in E | apply Z.ltb_ge in E];
    lia.
Qed.

(** ** The classification decoder *)

Lemma np_sum_nonneg a : Forall (fun x => 0 < x) a -> 0 <= Py.np_sum a.
Proof.
  induction 1 as [| x a Hx F IH]; [unfold Py.np_sum; simpl; lra |].
  rewrite np_sum_cons. lra.
Qed.

Lemma np_sum_ge_member a e :
  Forall (fun x => 0 < x) a -> In e a -> e <= Py.np_sum a.
Proof.
  induction 1 as [| x a Hx F IH]; [easy |].
  pose proof (np_sum_nonneg a F).
  rewrite np_sum_cons. intros [<- | He]; [lra | specialize (IH He); lra].
Qed.

Section ClassificationDecoderFacts.
Variable imagenet_labels : list string.
Variable np_exp : Q -> Q.

Lemma looks_like_logits_total scores :
  scores <> [] -> exists b, looks_like_logits scores = Ok b.
Proof.
  intros Hne. unfold looks_like_logits.
  destruct (np_max_nonempty scores Hne) as [mx ->].
  destruct (np_min_nonempty scores Hne) as [mn ->].
  rewrite !bind_Ok. destruct (Py.ltb 1 mx); eexists; reflexivity.
Qed.

Lemma normalized_scores_total scores :
  scores <> [] ->
  exists probs,
    normalized_scores np_exp scores = Ok probs /\
    List.length probs = List.length scores.
Proof.
  intros Hne. unfold normalized_scores.
  destruct (looks_like_logits_total scores Hne) as [[|] ->]; rewrite bind_Ok.
  - unfold softmax. destruct (np_max_nonempty scores Hne) as [mx ->].
    rewrite bind_Ok. eexists. split; [reflexivity |].
    now rewrite !length_map.
  - now exists scores.
Qed.

Lemma normalized_scores_empty :
  normalized_scores np_exp [] = Raise ValueError.
Proof. reflexivity. Qed.

(** The result of the decoder, spelled out. *)
Lemma parse_efficientnet_output_shape output top_k result :
  parse_efficientnet_output imagenet_labels np_exp output top_k =
    Ok result ->
  exists raw scores,
    scores_of output = Ok raw /\
    normalized_scores np_exp raw = Ok scores /\
    List.length scores = List.length raw /\
    result =
      map (fun idx =>
             mkClassification (label_of imagenet_labels idx)
               (nth idx scores 0))
          (List.rev (Py.slice_from (- top_k) (Py.np_argsort scores))).
Proof.
  unfold parse_efficientnet_output. intros H.
  apply bind_inv in H. destruct H as (raw & Hraw & H).
  apply bind_inv in H. destruct H as (scores & Hs & [= <-]).
  exists raw, scores.
  split; [exact Hraw |]. split; [exact Hs |]. split; [| reflexivity].
  destruct raw as [| x raw]; [discriminate |].
  destruct (normalized_scores_total (x :: raw)) as (probs & E & L);
    [discriminate |].
  rewrite E in Hs. injection Hs as <-. exact L.
Qed.

(** X15.  When [parse_efficientnet_output] fails and when it returns.  An
    empty batch raises [IndexError]; an empty score vector raises
    [ValueError] (the reduction [np.max] has nothing to reduce), whatever
    [top_k] is; a non-empty score vector always yields a result. *)
Theorem parse_efficientnet_output_errors output top_k :
  (scores_of output = Raise IndexError ->
   parse_efficientnet_output imagenet_labels np_exp output top_k =
     Raise IndexError) /\
  (scores_of output = Ok [] ->
   parse_efficientnet_output imagenet_labels np_exp output top_k =
     Raise ValueError) /\
  (forall raw,
      scores_of output = Ok raw -> raw <> [] ->
      exists result,
        parse_efficientnet_output imagenet_labels np_exp output top_k =
          Ok result).
Proof.
  unfold parse_efficientnet_output. split; [| split].
  - now intros ->.
  - now intros ->.
  - intros raw -> Hne. rewrite bind_Ok.
    destruct (normalized_scores_total raw Hne) as (probs & -> & _).
    rewrite bind_Ok. eexists. reflexivity.
Qed.

(** X16.  How many classifications come back for a vector of [n] scores:
    [min(top_k, n)] for a positive [top_k]; all [n] for [top_k = 0]
    (the slice [[-0:]] is the whole array); and [n - |top_k|], or none,
    for a negative [top_k]. *)
Theorem parse_efficientnet_output_length output top_k raw result :
  scores_of output = Ok raw ->
  parse_efficientnet_output imagenet_labels np_exp output top_k =
    Ok result ->
  let n := Z.of_nat (List.length raw) in
  ((0 < top_k)%Z -> Z.of_nat (List.length result) = Z.min top_k n) /\
  (top_k = 0%Z -> List.length result = List.length raw) /\
  ((top_k < 0)%Z -> Z.of_nat (List.length result) = Z.max 0 (n + top_k)).
Proof.
  intros Hraw H. apply parse_efficientnet_output_shape in H.
  destruct H as (raw' & scores & Hraw' & _ & L & ->).
  rewrite Hraw in Hraw'. injection Hraw' as <-. cbv zeta.
  assert (E : Z.of_nat
                (List.length
                   (map (fun idx =>
                           mkClassification (label_of imagenet_labels idx)
                             (nth idx scores 0))
                        (List.rev
                           (Py.slice_from (- top_k) (Py.np_argsort scores)))))
              = (if - top_k <? 0
                 then Z.min (- - top_k) (Z.of_nat (List.length raw))
                 else Z.of_nat (List.length raw)
                      - Z.min (- top_k) (Z.of_nat (List.length raw)))%Z).
  { rewrite length_map, length_rev, slice_from_length, np_argsort_length, L.
    reflexivity. }
  destruct (- top_k <? 0)%Z eqn:C;
    [apply Z.ltb_lt in C | apply Z.ltb_ge in C]; repeat split; lia.
Qed.

Lemma top_indices_sorted scores top_k :
  StronglySorted (fun i j => nth j scores 0 <= nth i scores 0)
    (List.rev (Py.slice_from (- top_k) (Py.np_argsort scores))).
Proof.
  apply (StronglySorted_rev (fun j k => nth j scores 0 <= nth k scores 0)).
  pose proof (np_argsort_sorted scores) as S.
  destruct (slice_from_split (- top_k) (Py.np_argsort scores)) as [cut E].
  rewrite E in S. now apply StronglySorted_app_inv in S.
Qed.

(** X17.  The classifications come back in order of non-increasing
    confidence. *)
Theorem parse_efficientnet_output_descending output top_k result :
  parse_efficientnet_output imagenet_labels np_exp output top_k =
    Ok result ->
  StronglySorted (before c_confidence) result.
Proof.
  intros H. apply parse_efficientnet_output_shape in H.
  destruct H as (raw & scores & _ & _ & _ & ->).
  apply StronglySorted_map. unfold before. cbn [c_confidence].
  apply top_indices_sorted.
Qed.

(** X18.  The classifications are a top-k selection: they stand for
    pairwise different indices of the score vector, each with the label
    and the score of its index, and no score left out exceeds a score
    that was returned. *)
Theorem parse_efficientnet_output_selects_top output top_k result :
  parse_efficientnet_output imagenet_labels np_exp output top_k =
    Ok result ->
  exists raw scores top_indices,
    scores_of output = Ok raw /\
    normalized_scores np_exp raw = Ok scores /\
    NoDup top_indices /\
    Forall (fun idx => (idx < List.length scores)%nat) top_indices /\
    result =
      map (fun idx =>
             mkClassification (label_of imagenet_labels idx)
               (nth idx scores 0))
          top_indices /\
    (forall i j,
        In i top_indices ->
        (j < List.length scores)%nat -> ~ In j top_indices ->
        nth j scores 0 <= nth i scores 0).
Proof.
  intros H. apply parse_efficientnet_output_shape in H.
  destruct H as (raw & scores & Hraw & Hs & _ & ->).
  exists raw, scores,
    (List.rev (Py.slice_from (- top_k) (Py.np_argsort scores))).
  destruct (slice_from_split (- top_k) (Py.np_argsort scores)) as [cut E].
  pose proof (np_argsort_NoDup scores) as N.
  pose proof (np_argsort_sorted scores) as S.
  rewrite E in N, S.
  apply StronglySorted_app_inv in S. destruct S as (_ & _ & C).
  split; [exact Hraw |]. split; [exact Hs |]. split; [| split; [| split]].
  - apply NoDup_rev. now apply NoDup_app_remove_l in N.
  - apply Forall_forall. intros idx Hidx.
    now apply in_rev, slice_from_In, np_argsort_In in Hidx.
  - reflexivity.
  - intros i j Hi Hj Hnot. apply in_rev in Hi.
    apply C; [| exact Hi].
    apply np_argsort_In in Hj. rewrite E in Hj.
    apply in_app_or in Hj. destruct Hj as [Hj | Hj]; [exact Hj |].
    exfalso. apply Hnot. now apply in_rev in Hj.
Qed.

Hypothesis np_exp_pos : forall x, 0 < np_exp x.

Lemma normalized_scores_range raw scores :
  normalized_scores np_exp raw = Ok scores ->
  Forall (fun x => 0 <= x <= 1) scores.
Proof.
  unfold normalized_scores. intros H. apply bind_inv in H.
  destruct H as ([|] & G & H).
  - unfold softmax in H. apply bind_inv in H.
    destruct H as (mx & _ & [= <-]).
    set (exp_scores := map (fun x => np_exp (x - mx)) raw).
    assert (F : Forall (fun x => 0 < x) exp_scores).
    { apply Forall_forall. intros e He. apply in_map_iff in He.
      destruct He as (x & <- & _). apply np_exp_pos. }
    apply Forall_forall. intros p Hp. apply in_map_iff in Hp.
    destruct Hp as (e & <- & He).
    pose proof (np_sum_ge_member _ _ F He) as L.
    rewrite Forall_forall in F. specialize (F e He). cbv beta in F.
    split.
    + apply Qle_shift_div_l; lra.
    + apply Qle_shift_div_r; lra.
  - injection H as <-. unfold looks_like_logits in G.
    apply bind_inv in G. destruct G as (mx & Hmx & G).
    destruct (Py.ltb 1 mx) eqn:E1; [discriminate |].
    apply bind_inv in G. destruct G as (mn & Hmn & [= E2]).
    apply ltb_false in E1, E2.
    apply np_max_spec in Hmx. apply np_min_spec in Hmn.
    destruct Hmx as [_ Fmx], Hmn as [_ Fmn].
    rewrite Forall_forall in Fmx, Fmn.
    apply Forall_forall. intros x Hx.
    specialize (Fmx x Hx). specialize (Fmn x Hx). cbv beta in Fmx, Fmn. lra.
Qed.

(** X19.  Every confidence returned by [parse_efficientnet_output] lies
    in [0,1], whether the scores were passed through or went through the
    softmax. *)
Theorem parse_efficientnet_output_confidence_range output top_k result :
  parse_efficientnet_output imagenet_labels np_exp output top_k =
    Ok result ->
  Forall (fun c => 0 <= c_confidence c <= 1) result.
Proof.
  intros H. apply parse_efficientnet_output_inv in H.
  destruct H as (raw & scores & _ & Hs & R).
  apply normalized_scores_range in Hs. rewrite Forall_forall in Hs.
  revert R. apply Forall_impl. intros c (idx & Hidx & _ & ->).
  apply Hs, nth_In, Hidx.
Qed.
End ClassificationDecoderFacts.

(** ** Labels *)

Lemma str_inj i j : Py.str i = Py.str j -> i = j.
Proof.
  unfold Py.str. intros H.
  apply DecimalNat.Unsigned.to_uint_inj.
  pose proof (DecimalString.NilEmpty.usu (Nat.to_uint i)) as Hi.
  pose proof (DecimalString.NilEmpty.usu (Nat.to_uint j)) as Hj.
  rewrite H in Hi. congruence.
Qed.

(** X20.  [label_of] never fails: an index inside the table gets the
    table's entry, an index outside gets the synthetic label
    [class_<index>], and different indices outside the table get different
    synthetic labels. *)
Theorem label_of_fallback labels :
  (forall i s, nth_error labels i = Some s -> label_of labels i = s) /\
  (forall i, (List.length labels <= i)%nat ->
             label_of labels i = ("class_" ++ Py.str i)%string) /\
  (forall i j,
      (List.length labels <= i)%nat -> (List.length labels <= j)%nat ->
      label_of labels i = label_of labels j -> i = j).
Proof.
  assert (Out : forall i, (List.length labels <= i)%nat ->
                          label_of labels i = ("class_" ++ Py.str i)%string).
  { intros i Hi. unfold label_of.
    destruct (i <? List.length labels)%nat eqn:E; [| reflexivity].
    apply Nat.ltb_lt in E. lia. }
  split; [| split; [exact Out |]].
  - intros i s Hs. unfold label_of.
    assert (L : (i < List.length labels)%nat)
      by (apply nth_error_Some; congruence).
    apply Nat.ltb_lt in L. rewrite L.
    now apply nth_error_nth.
  - intros i j Hi Hj E. rewrite (Out i Hi), (Out j Hj) in E.
    apply str_inj. simpl in E. now injection E.
Qed.

(** ** The endpoints *)

Lemma and_then_inv {E A B} (m : E + A) (k : A -> E + B) b :
  Server.and_then m k = inr b -> exists a, m = inr a /\ k a = inr b.
Proof.
  destruct m as [e | a]; [discriminate | intros H; now exists a].
Qed.

Lemma builtin_inv {F A} (m : result A) (a : A) :
  @Server.builtin F A m = inr a -> m = Ok a.
Proof.
  destruct m; [discriminate | now intros [= ->]].
Qed.

Section Endpoints.
Variable w : Server.World.
Variable g : Server.globals w.
Variable file : Server.UploadFile w.
Variables start_time end_time : Q.

(** A successful detection request decoded the detector's output with the
    default thresholds. *)
Lemma detect_objects_inv response :
  Server.detect_objects w g file start_time end_time = inr response ->
  exists yolo output width height,
    Server.yolo_interpreter g = Some yolo /\
    parse_yolo_output (Server.coco_labels g) output width height
      (25 # 100) (45 # 100) = Ok (Server.detections response) /\
    Server.success response = true.
Proof.
  unfold Server.detect_objects.
  destruct (Server.yolo_interpreter g) as [yolo |]; [| discriminate].
  cbv zeta. intros H.
  match type of H with
  | match ?a with inl _ => _ | inr _ => _ end = _ =>
      destruct a as [e | r] eqn:A; [discriminate |]
  end.
  injection H as ->.
  apply and_then_inv in A. destruct A as (image_bytes & _ & A).
  apply and_then_inv in A. destruct A as (image & _ & A).
  destruct (Server.image_size w image) as [width height].
  apply and_then_inv in A. destruct A as (resized & _ & A).
  apply and_then_inv in A. destruct A as (output & _ & A).
  apply and_then_inv in A. destruct A as (dets & P & [= <-]).
  apply builtin_inv in P.
  exists yolo, output, width, height. auto.
Qed.

Lemma classify_image_inv response :
  Server.classify_image w g file start_time end_time = inr response ->
  exists efficientnet output,
    Server.efficientnet_interpreter g = Some efficientnet /\
    parse_efficientnet_output (Server.imagenet_labels g) (Server.np_exp w)
      output 3 = Ok (Server.classifications response) /\
    Server.c_success response = true.
Proof.
  unfold Server.classify_image.
  destruct (Server.efficientnet_interpreter g) as [efficientnet |];
    [| discriminate].
  cbv zeta. intros H.
  match type of H with
  | match ?a with inl _ => _ | inr _ => _ end = _ =>
      destruct a as [e | r] eqn:A; [discriminate |]
  end.
  injection H as ->.
  apply and_then_inv in A. destruct A as (image_bytes & _ & A).
  apply and_then_inv in A. destruct A as (image & _ & A).
  apply and_then_inv in A. destruct A as (resized & _ & A).
  apply and_then_inv in A. destruct A as (uint8 & _ & A).
  apply and_then_inv in A. destruct A as (output & _ & A).
  apply and_then_inv in A. destruct A as (cls & P & [= <-]).
  apply builtin_inv in P.
  exists efficientnet, output. auto.
Qed.

(** X21.  The feature flag that [get_config] reports for object detection
    tells how [detect_objects] answers: with the flag off every request is
    refused with status 503; with the flag on a request either succeeds
    ([success] is true) or fails with status 500.  No other status is
    produced. *)
Theorem detect_objects_status :
  let flag :=
    Server.dict_get (Server.features (Server.get_config w g))
      "object_detection" in
  match Server.detect_objects w g file start_time end_time with
  | inl e =>
      (flag = Some false /\ Server.status_code e = 503%nat) \/
      (flag = Some true /\ Server.status_code e = 500%nat)
  | inr response => flag = Some true /\ Server.success response = true
  end.
Proof.
  cbv zeta.
  destruct (Server.detect_objects w g file start_time end_time)
    as [e | response] eqn:D.
  - unfold Server.detect_objects in D. unfold Server.get_config.
    cbn [Server.features Server.dict_get String.eqb Ascii.eqb Bool.eqb].
    destruct (Server.yolo_interpreter g) as [yolo |].
    + right. cbv zeta in D.
      match type of D with
      | match ?a with inl _ => _ | inr _ => _ end = _ =>
          destruct a; [| discriminate]
      end.
      injection D as <-. auto.
    + left. injection D as <-. auto.
  - apply detect_objects_inv in D.
    destruct D as (yolo & _ & _ & _ & Y & _ & S).
    unfold Server.get_config.
    cbn [Server.features Server.dict_get String.eqb Ascii.eqb Bool.eqb].
    rewrite Y. auto.
Qed.

(** X22.  Likewise for image classification: with the flag of
    [get_config] off, [classify_image] refuses every request with status
    503; with the flag on it either succeeds or fails with status 500. *)
Theorem classify_image_status :
  let flag :=
    Server.dict_get (Server.features (Server.get_config w g))
      "image_classification" in
  match Server.classify_image w g file start_time end_time with
  | inl e =>
      (flag = Some false /\ Server.status_code e = 503%nat) \/
      (flag = Some true /\ Server.status_code e = 500%nat)
  | inr response => flag = Some true /\ Server.c_success response = true
  end.
Proof.
  cbv zeta.
  destruct (Server.classify_image w g file start_time end_time)
    as [e | response] eqn:D.
  - unfold Server.classify_image in D. unfold Server.get_config.
    cbn [Server.features Server.dict_get String.eqb Ascii.eqb Bool.eqb].
    destruct (Server.efficientnet_interpreter g) as [efficientnet |].
    + right. cbv zeta in D.
      match type of D with
      | match ?a with inl _ => _ | inr _ => _ end = _ =>
          destruct a; [| discriminate]
      end.
      injection D as <-. auto.
    + left. injection D as <-. auto.
  - apply classify_image_inv in D.
    destruct D as (efficientnet & _ & Y & _ & S).
    unfold Server.get_config.
    cbn [Server.features Server.dict_get String.eqb Ascii.eqb Bool.eqb].
    rewrite Y. auto.
Qed.

(** X23.  [get_config] is consistent with itself: a model is listed in
    [models_available] exactly when its feature flag is on, the list holds
    nothing but the two model names, and never one of them twice. *)
Theorem get_config_consistent :
  let config := Server.get_config w g in
  (In "yolov8n"%string (Server.models_available config) <->
   Server.dict_get (Server.features config) "object_detection" =
     Some true) /\
  (In "efficientnet_lite0"%string (Server.models_available config) <->
   Server.dict_get (Server.features config) "image_classification" =
     Some true) /\
  incl (Server.models_available config)
       ["yolov8n"%string; "efficientnet_lite0"%string] /\
  NoDup (Server.models_available config).
Proof.
  unfold Server.get_config.
  cbn [Server.features Server.models_available Server.dict_get
       String.eqb Ascii.eqb Bool.eqb].
  assert (N : "yolov8n"%string <> "efficientnet_lite0"%string)
    by discriminate.
  destruct (Server.yolo_interpreter g), (Server.efficientnet_interpreter g);
    cbn [app]; (split; [| split; [| split]]).
  all: try (split; [reflexivity | intros _; simpl; auto]).
  all: try (split; [simpl; intros H | discriminate];
            repeat (destruct H as [H | H]; [congruence |]); contradiction).
  all: try (intros x Hx; simpl in *; tauto).
  all: repeat constructor; simpl; intros H;
    repeat (destruct H as [H | H]; [congruence |]); contradiction.
Qed.

(** X24.  A successful [detect_objects] returns at most ten detections,
    each with a confidence of at least the [min_confidence_detection] that
    [get_config] announces, in order of non-increasing confidence. *)
Theorem detect_objects_payload response :
  Server.detect_objects w g file start_time end_time = inr response ->
  (List.length (Server.detections response) <= 10)%nat /\
  Forall (fun d =>
            Server.min_confidence_detection (Server.get_config w g) <=
            confidence d)
         (Server.detections response) /\
  descending (Server.detections response).
Proof.
  intros D. apply detect_objects_inv in D.
  destruct D as (yolo & output & width & height & _ & P & _).
  pose proof P as P'. apply parse_yolo_output_inv in P'.
  destruct P' as (detections & S & E). rewrite E.
  split; [apply firstn_le_length |]. split.
  - apply Forall_forall. intros d Hd. rewrite <- E in Hd.
    destruct (parse_yolo_output_from_anchor _ _ _ _ _ _ _ _ P Hd)
      as (detection & _ & A).
    apply decode_anchor_Some in A.
    now destruct A as (? & ? & ? & ? & ? & _ & C & _).
  - apply sorted_firstn, apply_nms_sorted.
Qed.

(** X25.  A successful [classify_image] returns at most three
    classifications, in order of non-increasing confidence; and when
    [np.exp] is positive every confidence lies in [0,1]. *)
Theorem classify_image_payload response :
  Server.classify_image w g file start_time end_time = inr response ->
  (List.length (Server.classifications response) <= 3)%nat /\
  StronglySorted (before c_confidence) (Server.classifications response) /\
  ((forall x, 0 < Server.np_exp w x) ->
   Forall (fun c => 0 <= c_confidence c <= 1)
          (Server.classifications response)).
Proof.
  intros D. apply classify_image_inv in D.
  destruct D as (efficientnet & output & _ & P & _).
  pose proof P as P'. apply parse_efficientnet_output_shape in P'.
  destruct P' as (raw & scores & _ & Hs & _ & E). rewrite E.
  split; [| split].
  - rewrite length_map, length_rev.
    pose proof (slice_from_length (- (3)) (Py.np_argsort scores)) as L.
    change (- (3) <? 0)%Z with true in L. cbv iota in L. lia.
  - apply StronglySorted_map. unfold before. cbn [c_confidence].
    apply top_indices_sorted.
  - intros Pos.
    pose proof (normalized_scores_range _ Pos _ _ Hs) as R.
    rewrite Forall_forall in R.
    apply Forall_forall. intros c Hc. apply in_map_iff in Hc.
    destruct Hc as (idx & <- & Hidx). cbn [c_confidence].
    apply in_rev, slice_from_In, np_argsort_In in Hidx.
    apply R, nth_In, Hidx.
Qed.
End Endpoints.

(** ** Start-up *)

Section StartUp.
Variable w : Server.World.

Lemma seq_step_fst {A B} (m : Server.step w A) (k : A -> Server.step w B) g :
  fst (Server.seq_step m k g) =
  match snd (m g) with
  | inl _ => fst (m g)
  | inr a => fst (k a (fst (m g)))
  end.
Proof.
  unfold Server.seq_step. now destruct (m g) as [g' [e | a]].
Qed.

Lemma load_efficientnet_keeps g :
  let g' := fst (Server.load_efficientnet w g) in
  Server.yolo_interpreter g' = Server.yolo_interpreter g /\
  Server.coco_labels g' = Server.coco_labels g /\
  Server.imagenet_labels g' = Server.imagenet_labels g.
Proof.
  unfold Server.load_efficientnet.
  destruct (Server.path_exists w _); [| now cbv].
  unfold Server.seq_step, Server.call, Server.assign.
  destruct (Server.Interpreter_new w _) as [e | i]; [now cbv |].
  now destruct (Server.allocate_tensors w i).
Qed.

Lemma load_label_tables_keeps g :
  let g' := fst (Server.load_label_tables w g) in
  Server.yolo_interpreter g' = Server.yolo_interpreter g /\
  Server.efficientnet_interpreter g' = Server.efficientnet_interpreter g.
Proof.
  unfold Server.load_label_tables, Server.seq_step, Server.call,
    Server.assign.
  destruct (Server.load_labels w (Server.COCO_LABELS_PATH w));
    [now cbv |].
  now destruct (Server.load_labels w (Server.IMAGENET_LABELS_PATH w)).
Qed.

(** The detector installed by [load_models] is the one that the detector
    block leaves behind. *)
Lemma load_models_yolo g :
  Server.yolo_interpreter (Server.load_models w g) =
  match Server.import_tensorflow w with
  | inl _ => Server.yolo_interpreter g
  | inr _ => Server.yolo_interpreter (fst (Server.load_yolo w g))
  end.
Proof.
  unfold Server.load_models, Server.load_models_try.
  rewrite seq_step_fst. unfold Server.call at 1 2 3. cbn [fst snd].
  destruct (Server.import_tensorflow w) as [e | u]; [reflexivity |].
  rewrite seq_step_fst.
  destruct (snd (Server.load_yolo w g)); [reflexivity |].
  rewrite seq_step_fst.
  destruct (snd (Server.load_efficientnet w (fst (Server.load_yolo w g)))).
  - apply load_efficientnet_keeps.
  - destruct (load_label_tables_keeps
                (fst (Server.load_efficientnet w
                        (fst (Server.load_yolo w g))))) as [-> _].
    apply load_efficientnet_keeps.
Qed.

(** X26.  A failure while the detector is loaded ends [load_models] on
    the spot, without an exception leaving it.  When TensorFlow cannot be
    imported, or the detector's model file exists and cannot be opened,
    the globals stay as they were.  When the detector opens but
    [allocate_tensors] fails, the detector is installed all the same, and
    the classifier and both label tables stay as they were. *)
Theorem load_models_detector_failure g :
  (forall e,
      Server.import_tensorflow w = inl e -> Server.load_models w g = g) /\
  (forall u e,
      Server.import_tensorflow w = inr u ->
      Server.path_exists w (Server.YOLO_MODEL_PATH w) = true ->
      Server.Interpreter_new w (Server.YOLO_MODEL_PATH w) = inl e ->
      Server.load_models w g = g) /\
  (forall u i e,
      Server.import_tensorflow w = inr u ->
      Server.path_exists w (Server.YOLO_MODEL_PATH w) = true ->
      Server.Interpreter_new w (Server.YOLO_MODEL_PATH w) = inr i ->
      Server.allocate_tensors w i = inl e ->
      Server.load_models w g =
      Server.mkGlobals (Some i) (Server.efficientnet_interpreter g)
        (Server.coco_labels g) (Server.imagenet_labels g)).
Proof.
  unfold Server.load_models, Server.load_models_try, Server.load_yolo,
    Server.seq_step, Server.call, Server.assign.
  split; [| split].
  - intros e ->. reflexivity.
  - intros u e -> -> ->. reflexivity.
  - intros u i e -> -> -> ->. reflexivity.
Qed.

(** X27.  After start-up a detector is installed exactly when TensorFlow
    could be imported, the detector's model file exists and the
    interpreter could be created from it, whether or not
    [allocate_tensors] succeeded afterwards and whatever happened to the
    classifier and the labels. *)
Theorem startup_event_detector i :
  Server.yolo_interpreter (Server.startup_event w) = Some i <->
  (exists u, Server.import_tensorflow w = inr u) /\
  Server.path_exists w (Server.YOLO_MODEL_PATH w) = true /\
  Server.Interpreter_new w (Server.YOLO_MODEL_PATH w) = inr i.
Proof.
  unfold Server.startup_event. rewrite load_models_yolo.
  unfold Server.load_yolo, Server.seq_step, Server.call, Server.assign,
    Server.ret, Server.initial_globals.
  destruct (Server.import_tensorflow w) as [e | u].
  - cbn. split; [discriminate | intros [[u [=]] _]].
  - destruct (Server.path_exists w (Server.YOLO_MODEL_PATH w)).
    + destruct (Server.Interpreter_new w (Server.YOLO_MODEL_PATH w))
        as [e | i'].
      * cbn. split; [discriminate | intros (_ & _ & [=])].
      * destruct (Server.allocate_tensors w i'); cbn;
          (split; [intros [= ->]; eauto | intros (_ & _ & [= ->]); auto]).
    + cbn. split; [discriminate | intros (_ & [=] & _)].
Qed.
End StartUp.

(** * The further properties on the sample inputs *)

Lemma compute_iou_positive_iff_witness :
  0 < compute_iou (bbox Examples.a) (bbox Examples.b) /\
  compute_iou (bbox Examples.a) (bbox Examples.c) == 0.
Proof.
  split.
  - apply (compute_iou_positive_iff (bbox Examples.a) (bbox Examples.b));
      try reflexivity.
    unfold non_overlapping. simpl. lra.
  - apply (compute_iou_positive_iff (bbox Examples.a) (bbox Examples.c));
      try reflexivity.
    left. simpl. lra.
Defined.

Lemma apply_nms_dropped_is_suppressed_witness :
  In Examples.a (apply_nms [Examples.a; Examples.b; Examples.c] (45 # 100))
  \/
  exists k,
    In k (apply_nms [Examples.a; Examples.b; Examples.c] (45 # 100)) /\
    confidence Examples.a <= confidence k /\
    45 # 100 <= compute_iou (bbox k) (bbox Examples.a).
Proof.
  apply (apply_nms_dropped_is_suppressed
           [Examples.a; Examples.b; Examples.c] (45 # 100) Examples.a).
  left. reflexivity.
Defined.

Lemma apply_nms_keeps_best_witness :
  exists best rest,
    apply_nms [Examples.a; Examples.b; Examples.c] (45 # 100) =
      best :: rest /\
    In best [Examples.a; Examples.b; Examples.c] /\
    Forall (fun d => confidence d <= confidence best)
           [Examples.a; Examples.b; Examples.c].
Proof.
  apply (apply_nms_keeps_best [Examples.a; Examples.b; Examples.c]
           (45 # 100)).
  discriminate.
Defined.

Lemma apply_nms_threshold_above_1_witness :
  apply_nms [Examples.a; Examples.b; Examples.c] (11 # 10) =
    Py.sorted_reverse confidence [Examples.a; Examples.b; Examples.c] /\
  Permutation [Examples.a; Examples.b; Examples.c]
    (apply_nms [Examples.a; Examples.b; Examples.c] (11 # 10)).
Proof.
  apply (apply_nms_threshold_above_1 [Examples.a; Examples.b; Examples.c]
           (11 # 10)).
  reflexivity.
Defined.

Lemma apply_nms_threshold_nonpositive_witness :
  exists best,
    apply_nms [Examples.a; Examples.b; Examples.c] 0 = [best] /\
    In best [Examples.a; Examples.b; Examples.c] /\
    Forall (fun d => confidence d <= confidence best)
           [Examples.a; Examples.b; Examples.c].
Proof.
  apply (apply_nms_threshold_nonpositive
           [Examples.a; Examples.b; Examples.c] 0);
    discriminate.
Defined.

Lemma apply_nms_overlapping_pair_witness :
  apply_nms [Examples.b; Examples.a] (45 # 100) = [Examples.b] /\
  apply_nms [Examples.a; Examples.b] (45 # 100) = [Examples.b].
Proof.
  destruct (apply_nms_overlapping_pair Examples.b Examples.a (45 # 100))
    as [H1 H2]; [discriminate | discriminate |].
  split; [exact H1 | apply H2; reflexivity].
Defined.


Lemma parse_yolo_output_clamp_witness :
  Forall (fun d => in_unit_square (bbox d)) Examples.three_anchors_detections.
Proof.
  apply (parse_yolo_output_clamp Examples.coco Examples.three_anchors
           1920 1080 (1 # 4) (45 # 100) Examples.three_anchors_detections);
    [reflexivity |].
  apply Forall_forall. intros row H. vm_compute in H.
  destruct H as [<- | [<- | [<- | []]]];
    repeat split; vm_compute; discriminate.
Defined.

Lemma parse_yolo_output_best_class_witness :
  exists detection class_id,
    In detection (anchors Examples.three_anchors) /\
    (class_id < 80)%nat /\
    "car"%string = label_of Examples.coco class_id /\
    nth_error (Py.slice 4 84 detection) class_id = Some (6 # 10) /\
    Forall (fun s => s <= 6 # 10) (Py.slice 4 84 detection) /\
    (forall k s,
        (k < class_id)%nat ->
        nth_error (Py.slice 4 84 detection) k = Some s ->
        s < 6 # 10).
Proof.
  apply (parse_yolo_output_best_class Examples.coco Examples.three_anchors
           1920 1080 (1 # 4) (45 # 100) Examples.three_anchors_detections
           (mkDetection "car" (6 # 10) (corner_box 400 400 60 60)));
    [reflexivity | right; left; reflexivity].
Defined.

Lemma parse_yolo_output_no_pair_at_threshold_witness :
  ~ 45 # 100 <=
    compute_iou (corner_box 104 100 80 80) (corner_box 400 400 60 60).
Proof.
  apply (parse_yolo_output_no_pair_at_threshold Examples.coco
           Examples.three_anchors 1920 1080 (1 # 4) (45 # 100)
           Examples.three_anchors_detections 0 1
           (mkDetection "bicycle" (9 # 10) (corner_box 104 100 80 80))
           (mkDetection "car" (6 # 10) (corner_box 400 400 60 60)));
    [reflexivity | discriminate | reflexivity | reflexivity].
Defined.

Lemma parse_efficientnet_output_errors_witness :
  parse_efficientnet_output Examples.coco Examples.exp2 (Float32 []) 3 =
    Raise IndexError /\
  parse_efficientnet_output Examples.coco Examples.exp2 (UInt8 [[]]) 3 =
    Raise ValueError /\
  exists result,
    parse_efficientnet_output Examples.coco Examples.exp2
      (Float32 [Examples.logits]) 3 = Ok result.
Proof.
  split; [| split].
  - apply (parse_efficientnet_output_errors Examples.coco Examples.exp2
             (Float32 []) 3). reflexivity.
  - apply (parse_efficientnet_output_errors Examples.coco Examples.exp2
             (UInt8 [[]]) 3). reflexivity.
  - destruct (parse_efficientnet_output_errors Examples.coco Examples.exp2
                (Float32 [Examples.logits]) 3) as (_ & _ & H).
    apply (H Examples.logits); [reflexivity | discriminate].
Defined.

Lemma parse_efficientnet_output_length_witness :
  exists result,
    parse_efficientnet_output Examples.coco Examples.exp2
      (Float32 [Examples.probabilities]) 0 = Ok result /\
    List.length result = 4%nat.
Proof.
  eexists. split; [reflexivity |].
  apply (parse_efficientnet_output_length Examples.coco Examples.exp2
           (Float32 [Examples.probabilities]) 0 Examples.probabilities);
    reflexivity.
Defined.

Lemma parse_efficientnet_output_descending_witness :
  exists result,
    parse_efficientnet_output Examples.coco Examples.exp2
      (Float32 [Examples.probabilities]) 3 = Ok result /\
    StronglySorted (before c_confidence) result.
Proof.
  eexists. split; [reflexivity |].
  apply (parse_efficientnet_output_descending Examples.coco Examples.exp2
           (Float32 [Examples.probabilities]) 3).
  reflexivity.
Defined.

Lemma parse_efficientnet_output_selects_top_witness :
  exists raw scores top_indices,
    scores_of (Float32 [Examples.probabilities]) = Ok raw /\
    normalized_scores Examples.exp2 raw = Ok scores /\
    NoDup top_indices /\
    Forall (fun idx => (idx < List.length scores)%nat) top_indices /\
    [ mkClassification "bicycle" (7 # 10);
      mkClassification "class_3" (15 # 100);
      mkClassification "person" (1 # 10) ] =
      map (fun idx =>
             mkClassification (label_of Examples.coco idx)
               (nth idx scores 0))
          top_indices /\
    (forall i j,
        In i top_indices ->
        (j < List.length scores)%nat -> ~ In j top_indices ->
        nth j scores 0 <= nth i scores 0).
Proof.
  apply (parse_efficientnet_output_selects_top Examples.coco Examples.exp2
           (Float32 [Examples.probabilities]) 3).
  reflexivity.
Defined.

Lemma parse_efficientnet_output_confidence_range_witness :
  exists result,
    parse_efficientnet_output Examples.coco Examples.exp2
      (Float32 [Examples.logits]) 3 = Ok result /\
    Forall (fun c => 0 <= c_confidence c <= 1) result.
Proof.
  eexists. split; [reflexivity |].
  apply (parse_efficientnet_output_confidence_range Examples.coco
           Examples.exp2 exp2_pos (Float32 [Examples.logits]) 3).
  reflexivity.
Defined.

Lemma label_of_fallback_witness :
  label_of Examples.coco 1 = "bicycle"%string /\
  label_of Examples.coco 7 = "class_7"%string /\
  (label_of Examples.coco 7 = label_of Examples.coco 7 -> 7 = 7)%nat.
Proof.
  destruct (label_of_fallback Examples.coco) as (In_table & Out & Inj).
  split; [apply In_table; reflexivity |].
  split; [apply (Out 7%nat); simpl; lia |].
  apply Inj; simpl; lia.
Defined.

Lemma detect_objects_payload_witness :
  let response :=
    Server.mkDetectionResponse true Examples.three_anchors_detections
      (((1 # 10) - 0) * 1000) in
  Server.detect_objects sample_world
    (Server.startup_event sample_world) [] 0 (1 # 10) = inr response /\
  (List.length (Server.detections response) <= 10)%nat /\
  Forall (fun d =>
            Server.min_confidence_detection
              (Server.get_config sample_world
                 (Server.startup_event sample_world)) <=
            confidence d)
         (Server.detections response) /\
  descending (Server.detections response).
Proof.
  cbv zeta.
  assert (H : Server.detect_objects sample_world
                (Server.startup_event sample_world) [] 0 (1 # 10) =
              inr (Server.mkDetectionResponse true
                     Examples.three_anchors_detections
                     (((1 # 10) - 0) * 1000)))
    by (vm_compute; reflexivity).
  split; [exact H |].
  exact (detect_objects_payload sample_world
           (Server.startup_event sample_world) [] 0 (1 # 10) _ H).
Defined.

Lemma classify_image_payload_witness :
  let g :=
    @Server.mkGlobals sample_world None (Some "efficientnet"%string) [] [] in
  let response :=
    Server.mkClassificationResponse true
      [ mkClassification "class_1" (dequantize Byte.xff);
        mkClassification "class_2" (dequantize Byte.x80);
        mkClassification "class_0" (dequantize Byte.x00) ]
      (((1 # 10) - 0) * 1000) in
  Server.classify_image sample_world g [] 0 (1 # 10) = inr response /\
  (List.length (Server.classifications response) <= 3)%nat /\
  StronglySorted (before c_confidence) (Server.classifications response) /\
  ((forall x, 0 < Server.np_exp sample_world x) ->
   Forall (fun c => 0 <= c_confidence c <= 1)
          (Server.classifications response)).
Proof.
  cbv zeta.
  assert (H : Server.classify_image sample_world
                (@Server.mkGlobals sample_world None
                   (Some "efficientnet"%string) [] [])
                [] 0 (1 # 10) =
              inr (Server.mkClassificationResponse true
                     [ mkClassification "class_1" (dequantize Byte.xff);
                       mkClassification "class_2" (dequantize Byte.x80);
                       mkClassification "class_0" (dequantize Byte.x00) ]
                     (((1 # 10) - 0) * 1000)))
    by (vm_compute; reflexivity).
  split; [exact H |].
  exact (classify_image_payload sample_world
           (@Server.mkGlobals sample_world None
              (Some "efficientnet"%string) [] [])
           [] 0 (1 # 10) _ H).
Defined.

Lemma load_models_detector_failure_witness :
  Server.load_models failing_world (Server.initial_globals failing_world) =
  @Server.mkGlobals failing_world (Some "yolov8n.tflite"%string) None [] [].
Proof.
  apply (load_models_detector_failure failing_world
           (Server.initial_globals failing_world))
    with (u := tt) (e := Server.Raised "allocation failed"%string);
    reflexivity.
Defined.

Lemma startup_event_detector_witness :
  Server.yolo_interpreter (Server.startup_event sample_world) =
  Some ("yolov8n.tflite"%string : Server.Interpreter sample_world).
Proof.
  apply (startup_event_detector sample_world).
  split; [exists tt; reflexivity | split; reflexivity].
Defined.
